(** * Sustainable Personal Accounts: account state machine, metering engine,
      reporting aggregator and maintenance scanner.

    Shallow embedding of
      - code/account.py                            (Module Account)
      - code/move_expired_accounts_handler.py       (Module Scanner)
      - code/on_account_event_then_meter_handler.py (Module Meter)
      - lambdas/on_record_handler.py                (Module Reports)
    Python dictionaries are insertion-ordered association lists, exceptions
    are an outcome of a small state-and-error monad, [time()] is an IEEE
    binary64 float, calls to the cloud provider are either oracles (reads) or
    entries of a call log (mutations).  Of the logging calls, those of
    account.py and of the scanner at level info and above are kept, as
    entries of a log; the decorator [trap_exception] and the decoding of raw
    events belong to modules that are not part of the sources at hand, and
    the handlers are embedded from their decoded input on. *)

From Stdlib Require Import Floats Ascii.
From stdpp Require Import gmap strings list.



(** ** Python values *)

Module Py.

(** [class State(Enum)] of account.py. *)
Inductive State := VANILLA | ASSIGNED | RELEASED | EXPIRED.

Definition value (s : State) : string :=
  match s with
  | VANILLA => "vanilla"
  | ASSIGNED => "assigned"
  | RELEASED => "released"
  | EXPIRED => "expired"
  end.

(** Iteration over the enumeration, in definition order. *)
Definition State_members : list State := [VANILLA; ASSIGNED; RELEASED; EXPIRED].

#[global] Instance State_eq_dec : EqDecision State.
Proof. solve_decision. Defined.

(** The objects that reach the modelled code: [None], [str], [float],
    members of [State], and a [SimpleNamespace] with string
    attributes (what test_account.py passes to [move]). *)
Inductive pyobj :=
  | PyNone
  | PyStr (s : string)
  | PyFloat (f : float)
  | PyState (s : State)
  | PyNamespace (attrs : list (string * string)).

(** [isinstance(o, State)] *)
Definition isinstance_State (o : pyobj) : bool :=
  match o with PyState _ => true | _ => false end.

(** [a == b].  [str], [float] and [Enum] only know how to compare with their
    own kind; every mixed comparison falls back to identity and is [False].
    [State] is a plain [Enum] (no [str] mixin), so a member never equals its
    value.  Two namespaces are equal when their attributes are, as
    mappings. *)
Definition py_eq (a b : pyobj) : bool :=
  match a, b with
  | PyNone, PyNone => true
  | PyStr s, PyStr t => bool_decide (s = t)
  | PyFloat f, PyFloat g => PrimFloat.eqb f g
  | PyState s, PyState t => bool_decide (s = t)
  | PyNamespace x, PyNamespace y =>
      bool_decide (list_to_map x =@{gmap string string} list_to_map y)
  | _, _ => false
  end.

(** [a != b] *)
Definition py_ne (a b : pyobj) : bool := negb (py_eq a b).

(** Truth value of an optional string ([if token:]). *)
Definition truthy_str (o : option string) : bool :=
  match o with
  | Some s => negb (bool_decide (s = ""))
  | None => false
  end.

(** *** Dictionaries with string keys, in insertion order *)

Definition dict (V : Type) : Type := list (string * V).

Section Dict.
Context {V : Type}.

(** [d.get(k)]; [None] stands for a missing key. *)
Fixpoint dict_get (k : string) (d : dict V) : option V :=
  match d with
  | [] => None
  | (k', v) :: d' => if decide (k = k') then Some v else dict_get k d'
  end.

(** [d[k] = v]: an existing key keeps its position, a new key goes last. *)
Fixpoint dict_set (k : string) (v : V) (d : dict V) : dict V :=
  match d with
  | [] => [(k, v)]
  | (k', v') :: d' =>
      if decide (k = k') then (k, v) :: d' else (k', v') :: dict_set k v d'
  end.

(** [d.keys()] *)
Definition dict_keys (d : dict V) : list string := d.*1.

(** [k in d] *)
Definition dict_mem (k : string) (d : dict V) : bool :=
  bool_decide (is_Some (dict_get k d)).

(** [bool(d)] *)
Definition dict_truthy (d : dict V) : bool :=
  match d with [] => false | _ => true end.
End Dict.

(** The distinct members of a list, each at the place where it is first
    seen: the order in which a dictionary keeps the keys it is given. *)
Definition first_seen (l : list string) : list string :=
  foldl (fun seen k => if decide (k ∈ seen) then seen else seen ++ [k]) [] l.

End Py.

(** ** Exceptions and the monad of effectful code *)

Inductive exn :=
  | ValueError     (* InvalidAccountTags and InvalidState are both ValueError *)
  | KeyError (key : string)
  | TypeError
  | ClientError.   (* an error of the cloud provider *)

(** How a call ends: it returns, it raises, or the loop it runs has not
    finished within the given number of rounds. *)
Inductive outcome (A : Type) :=
  | Ok (a : A)
  | Raise (e : exn)
  | OutOfFuel.
Arguments Ok {A} a.
Arguments Raise {A} e.
Arguments OutOfFuel {A}.

Definition M (St A : Type) : Type := St -> outcome A * St.

Definition ret {St A} (a : A) : M St A := fun w => (Ok a, w).

Definition bind {St A B} (m : M St A) (k : A -> M St B) : M St B :=
  fun w =>
    match m w with
    | (Ok a, w') => k a w'
    | (Raise e, w') => (Raise e, w')
    | (OutOfFuel, w') => (OutOfFuel, w')
    end.

Definition raise {St A} (e : exn) : M St A := fun w => (Raise e, w).

Definition gets {St A} (f : St -> A) : M St A := fun w => (Ok (f w), w).

Definition modify {St} (f : St -> St) : M St unit := fun w => (Ok tt, f w).

Declare Scope py_scope.
Delimit Scope py_scope with py.
Notation "x <- m ;; k" := (bind m (fun x => k))
  (at level 100, m at next level, right associativity) : py_scope.
Notation "m ;;; k" := (bind m (fun _ => k))
  (at level 100, right associativity) : py_scope.
Open Scope py_scope.

(** [for x in xs: body x] *)
Fixpoint for_each {St A} (xs : list A) (body : A -> M St unit) : M St unit :=
  match xs with
  | [] => ret tt
  | x :: xs' => body x ;;; for_each xs' body
  end.

(** A computation that leaves the state as it finds it, however it ends. *)
Definition read_only {St A} (m : M St A) : Prop := forall w, (m w).2 = w.

(** [d[k]]: a missing key raises [KeyError]. *)
Definition dict_getitem {St V} (k : string) (d : Py.dict V) : M St V :=
  match Py.dict_get k d with
  | Some v => ret v
  | None => raise (KeyError k)
  end.

(** ** Regular expressions, as far as [Account.VALID_EMAIL] needs them *)

Module Re.

(** A character set [[...]] is a list of inclusive ranges; a single character
    [c] is the range [(c, c)]. *)
Inductive regex :=
  | Void
  | Eps
  | Chars (ranges : list (ascii * ascii))
  | Cat (r s : regex)
  | Alt (r s : regex)
  | Star (r : regex).

(** [r+] and [r{2,}] *)
Definition Plus (r : regex) : regex := Cat r (Star r).
Definition AtLeast2 (r : regex) : regex := Cat r (Cat r (Star r)).

Definition in_range (c : ascii) (rg : ascii * ascii) : bool :=
  Nat.leb (nat_of_ascii rg.1) (nat_of_ascii c)
  && Nat.leb (nat_of_ascii c) (nat_of_ascii rg.2).

Definition in_chars (c : ascii) (ranges : list (ascii * ascii)) : bool :=
  existsb (in_range c) ranges.

Fixpoint nullable (r : regex) : bool :=
  match r with
  | Void => false
  | Eps => true
  | Chars _ => false
  | Cat r s => nullable r && nullable s
  | Alt r s => nullable r || nullable s
  | Star _ => true
  end.

(** What is left of [r] after reading [c]. *)
Fixpoint deriv (c : ascii) (r : regex) : regex :=
  match r with
  | Void => Void
  | Eps => Void
  | Chars rs => if in_chars c rs then Eps else Void
  | Cat r s =>
      if nullable r then Alt (Cat (deriv c r) s) (deriv c s)
      else Cat (deriv c r) s
  | Alt r s => Alt (deriv c r) (deriv c s)
  | Star r => Cat (deriv c r) (Star r)
  end.

(** [re.fullmatch(r, text) is not None] *)
Fixpoint fullmatch (r : regex) (text : string) : bool :=
  match text with
  | EmptyString => nullable r
  | String c rest => fullmatch (deriv c r) rest
  end.

(** The words of a regular expression. *)
Inductive Matches : regex -> string -> Prop :=
  | MEps : Matches Eps ""
  | MChars c rs : in_chars c rs = true -> Matches (Chars rs) (String c "")
  | MCat r s u v : Matches r u -> Matches s v -> Matches (Cat r s) (u +:+ v)
  | MAltL r s u : Matches r u -> Matches (Alt r s) u
  | MAltR r s u : Matches s u -> Matches (Alt r s) u
  | MStarNil r : Matches (Star r) ""
  | MStarCons r u v :
      Matches r u -> Matches (Star r) v -> Matches (Star r) (u +:+ v).

End Re.

(** ** code/account.py *)

Module Account.
Import Py Re.

(** *** The organizations service, as the code sees it *)

(** An item of [chunk['Tags']]. *)
Record Tag := { Key : string; Value : string }.

(** A page of a paginated listing: [chunk['Tags']] or [chunk['Accounts']],
    and [chunk.get('NextToken')]. *)
Record chunk (A : Type) := { items : list A; NextToken : option string }.
Arguments items {A} c.
Arguments NextToken {A} c.

(** The attributes of an account that the code reads. *)
Record AccountAttrs :=
  { Id : string; Arn : string; Email : string; Name : string; Status : string }.

(** [session.client('organizations')]: the read calls are oracles of the
    resource (and parent) and of the [NextToken] parameter, absent on the
    first call.  [describe_account] fails for an unknown account. *)
Record Session := {
  list_tags_for_resource : string -> option string -> chunk Tag;
  list_accounts_for_parent : string -> option string -> chunk AccountAttrs;
  describe_account : string -> option AccountAttrs
}.

(** One call [tag_resource(ResourceId=..., Tags=[...])]. *)
Record TagCall := { ResourceId : string; Tags : list Tag }.

Inductive level := INFO | WARNING.

(** What the code reads and writes outside of its arguments: [os.environ],
    the sessions that [get_session] can build, the organizational units
    under management ([session.get_organizational_units], a module that is
    not part of the sources at hand), the [tag_resource] calls made so far
    and the records logged at level info and above. *)
Record World := {
  environ : gmap string string;
  default_session : Session;
  make_session : string -> Session;
  organizational_units : list string;
  tag_calls : list TagCall;
  log : list (level * string)
}.

Definition os_environ_get (k : string) : M World (option string) :=
  gets (fun w => environ w !! k).

(** The world after one more record is logged, after one more call. *)
Definition logged (w : World) (entry : level * string) : World :=
  {| environ := environ w; default_session := default_session w;
     make_session := make_session w;
     organizational_units := organizational_units w;
     tag_calls := tag_calls w; log := log w ++ [entry] |}.

Definition tagged (w : World) (call : TagCall) : World :=
  {| environ := environ w; default_session := default_session w;
     make_session := make_session w;
     organizational_units := organizational_units w;
     tag_calls := tag_calls w ++ [call]; log := log w |}.

(** [logging.info(msg)], [logging.warning(msg)] *)
Definition logging (l : level) (msg : string) : M World unit :=
  modify (fun w => logged w (l, msg)).

(** [session.client('organizations').tag_resource(ResourceId=..., Tags=...)] *)
Definition tag_resource (s : Session) (resource : string) (tags : list Tag)
  : M World unit :=
  modify (fun w => tagged w {| ResourceId := resource; Tags := tags |}).

Definition out_of_fuel {A} : M World A := fun w => (OutOfFuel, w).

(** *** class Account *)

(** [VALID_EMAIL]:
    ([A-Za-z0-9]+[.-_])*[A-Za-z0-9]+@[A-Za-z0-9-]+(\.[A-Z|a-z]{2,})+
    In the second set [.-_] is the range from [.] to [_]; in the last one
    the bar is a member of the set. *)
Definition alnum : regex :=
  Chars [("A", "Z"); ("a", "z"); ("0", "9")]%char.
Definition VALID_EMAIL : regex :=
  Cat (Star (Cat (Plus alnum) (Chars [(".", "_")]%char)))
 (Cat (Plus alnum)
 (Cat (Chars [("@", "@")]%char)
 (Cat (Plus (Chars [("A", "Z"); ("a", "z"); ("0", "9"); ("-", "-")]%char))
      (Plus (Cat (Chars [(".", ".")]%char)
                 (AtLeast2 (Chars [("A", "Z"); ("|", "|"); ("a", "z")]%char))))))).

Definition get_session : M World Session :=
  role <- os_environ_get "ROLE_ARN_TO_MANAGE_ACCOUNTS" ;;
  match role with
  | Some arn =>
      if truthy_str role then gets (fun w => make_session w arn)
      else gets default_session
  | None => gets default_session
  end.

(** [session or cls.get_session()] *)
Definition session_or (session : option Session) : M World Session :=
  match session with
  | Some s => ret s
  | None => get_session
  end.

Definition validate_owner (text : string) : bool := fullmatch VALID_EMAIL text.

Definition validate_state (text : string) : bool :=
  bool_decide (text ∈ value <$> State_members).

(** The [while True] loop of [iterate_tags] and of [list]: fetch a page,
    yield its items, go on while the page carries a token.  [fuel] bounds
    the number of pages. *)
Fixpoint paginate {A} (fuel : nat) (fetch : option string -> chunk A)
    (token : option string) : option (list A) :=
  match fuel with
  | 0 => None
  | S n =>
      let chunk := fetch (if truthy_str token then token else None) in
      let token := NextToken chunk in
      if truthy_str token
      then (fun rest => items chunk ++ rest) <$> paginate n fetch token
      else Some (items chunk)
  end.

(** The pages that a listing goes through from the call with [token] on,
    when it comes to an end: every page but the last carries a token. *)
Inductive pages {A} (fetch : option string -> chunk A)
  : option string -> list (chunk A) -> Prop :=
  | pages_last token :
      let chunk := fetch (if truthy_str token then token else None) in
      truthy_str (NextToken chunk) = false ->
      pages fetch token [chunk]
  | pages_more token rest :
      let chunk := fetch (if truthy_str token then token else None) in
      truthy_str (NextToken chunk) = true ->
      pages fetch (NextToken chunk) rest ->
      pages fetch token (chunk :: rest).

(** The items that the generator yields, in order. *)
Definition iterate_tags (fuel : nat) (account : string)
    (session : option Session) : M World (list Tag) :=
  session <- session_or session ;;
  match paginate fuel (list_tags_for_resource session account) None with
  | Some tags => ret tags
  | None => out_of_fuel
  end.

(** [for item in found: tags[item.get('Key')] = item.get('Value')] *)
Definition store_tags (tags : dict string) (found : list Tag) : dict string :=
  foldl (fun tags item => dict_set (Key item) (Value item) tags) tags found.

Definition list_tags (fuel : nat) (account : string)
    (session : option Session) : M World (dict string) :=
  found <- iterate_tags fuel account session ;;
  ret (store_tags [] found).

Definition validate_tags (fuel : nat) (account : string)
    (session : option Session) : M World unit :=
  tags <- list_tags fuel account session ;;
  if negb (bool_decide ("account:owner" ∈ dict_keys tags)) then raise ValueError else
  owner <- dict_getitem "account:owner" tags ;;
  if negb (validate_owner owner) then raise ValueError else
  if negb (bool_decide ("account:state" ∈ dict_keys tags)) then raise ValueError else
  state <- dict_getitem "account:state" tags ;;
  if negb (validate_state state) then raise ValueError else
  ret tt.

Definition move (account : string) (state : pyobj)
    (session : option Session) : M World unit :=
  match state with
  | PyState member =>
      logging INFO ("Tagging account '" +:+ account +:+ "' with state '"
                    +:+ value member +:+ "'...") ;;;
      dry_run <- os_environ_get "DRY_RUN" ;;
      if bool_decide (dry_run = Some "FALSE") then
        session <- session_or session ;;
        tag_resource session account
          [{| Key := "account:state"; Value := value member |}] ;;;
        logging INFO "Done"
      else
        logging WARNING "Dry-run mode - account has not been tagged"
  | _ => raise ValueError
  end.

(** Valid tags, in the words of the specification: an owner that is a word of
    [VALID_EMAIL] and a state that is the value of a member of [State]. *)
Definition valid_tag_set (tags : dict string) : Prop :=
  (exists owner, dict_get "account:owner" tags = Some owner
                 /\ Matches VALID_EMAIL owner)
  /\ (exists state, dict_get "account:state" tags = Some state
                    /\ state ∈ ["vanilla"; "assigned"; "released"; "expired"]).

(** [Account.list]: the account identifiers that the generator yields. *)
Definition list_ (fuel : nat) (parent : string)
    (session : option Session) : M World (list string) :=
  session <- session_or session ;;
  match paginate fuel (list_accounts_for_parent session parent) None with
  | Some found => ret (Id <$> found)
  | None => out_of_fuel
  end.

(** The [SimpleNamespace] that [describe] returns. *)
Record AccountView := {
  id : string; arn : string; email : string; name : string;
  is_active : bool; tags : dict string
}.

Definition describe (fuel : nat) (id : string)
    (session : option Session) : M World AccountView :=
  session <- session_or session ;;
  match describe_account session id with
  | None => raise ClientError
  | Some attributes =>
      tags <- list_tags fuel id (Some session) ;;
      ret {| id := id; arn := Arn attributes; email := Email attributes;
             name := Name attributes;
             is_active := bool_decide (Status attributes = "ACTIVE");
             tags := tags |}
  end.

End Account.

(** ** code/move_expired_accounts_handler.py *)

Module Scanner.
Import Py Account.

(** [tags.get(k)]: the tag as a Python object, [None] when absent. *)
Definition tags_get (k : string) (tags : dict string) : pyobj :=
  match dict_get k tags with
  | Some v => PyStr v
  | None => PyNone
  end.

(** The body of [handle_event].  The generator [Account.list] is consumed
    page by page in the source; its pages do not depend on what the loop
    body does, so the loop runs over the identifiers it yields. *)
Definition handle_event (fuel : nat) (session : option Session) : M World unit :=
  units <- gets organizational_units ;;
  for_each units (fun unit =>
    accounts <- list_ fuel unit session ;;
    for_each accounts (fun account =>
      item <- describe fuel account None ;;
      if negb (is_active item) then ret tt
      else if py_ne (tags_get "account:state" (tags item)) (PyState RELEASED)
      then ret tt
      else
        logging INFO ("Expiring account '" +:+ account +:+ "'") ;;;
        move account (PyState EXPIRED) None)).

(** The rule as the specification words it: an account is due when it is
    active and its state tag is released. *)
Definition due_for_expiry (item : AccountView) : bool :=
  is_active item
  && bool_decide (dict_get "account:state" (tags item) = Some (value RELEASED)).

(** Whether the account that [describe] shows is due, by that rule. *)
Definition due (fuel : nat) (account : string) (w : World) : bool :=
  match (describe fuel account None w).1 with
  | Ok item => due_for_expiry item
  | _ => false
  end.

End Scanner.

(** ** code/on_account_event_then_meter_handler.py *)

Module Meter.
Import Py.

(** The decoded event, [input.label] and [input.account]. *)
Record AccountEvent := { label : string; account : string }.

(** A transaction is the dictionary that the handlers build and store. *)
Abbreviation transaction := (dict pyobj).

(** The world of the metering handlers: the ledger behind [datastore], the
    readings that successive calls of [time()] return and how many were
    taken, the identifiers that successive [uuid4()] calls draw and how many
    were drawn, and the events handed to [Events.emit_spa_event]. *)
Record World := {
  ledger : gmap string transaction;
  clock : nat -> float;
  ticks : nat;
  uuids : nat -> string;
  draws : nat;
  outbox : list (string * transaction)
}.

Definition with_ledger (f : gmap string transaction -> gmap string transaction)
    (w : World) : World :=
  {| ledger := f (ledger w); clock := clock w; ticks := ticks w;
     uuids := uuids w; draws := draws w; outbox := outbox w |}.

(** [time()] *)
Definition time : M World float := fun w =>
  (Ok (clock w (ticks w)),
   {| ledger := ledger w; clock := clock w; ticks := S (ticks w);
      uuids := uuids w; draws := draws w; outbox := outbox w |}).

(** [str(uuid4())] *)
Definition uuid4 : M World string := fun w =>
  (Ok (uuids w (draws w)),
   {| ledger := ledger w; clock := clock w; ticks := ticks w;
      uuids := uuids w; draws := S (draws w); outbox := outbox w |}).

(** Modelled from the spec: the class [Datastore] (module datastore is not
    part of the sources at hand).  [assign(key, value)] is an upsert and
    [assign(key, None)] deletes; [retrieve(key)] gives the value or [None],
    a record past its expiration being absent like one never written: the
    map holds the records that can be read. *)
Definition datastore_assign (key : string) (value : option transaction)
  : M World unit :=
  modify (with_ledger (fun l =>
    match value with
    | Some v => <[key := v]> l
    | None => delete key l
    end)).

Definition datastore_retrieve (key : string) : M World (option transaction) :=
  gets (fun w => ledger w !! key).

(** Modelled from the spec: [Events.emit_spa_event] (module events is not
    part of the sources at hand) puts the outbound envelope, label and
    payload, on the event bus. *)
Definition emit_spa_event (label : string) (payload : transaction)
  : M World unit :=
  modify (fun w =>
    {| ledger := ledger w; clock := clock w; ticks := ticks w;
       uuids := uuids w; draws := draws w;
       outbox := outbox w ++ [(label, payload)] |}).

(** [a - b] *)
Definition py_sub (a b : pyobj) : M World pyobj :=
  match a, b with
  | PyFloat x, PyFloat y => ret (PyFloat (PrimFloat.sub x y))
  | _, _ => raise TypeError
  end.

(** [if transaction:] on what [retrieve] gave: [None] and the empty
    dictionary are false. *)
Definition truthy (t : option transaction) : bool :=
  match t with
  | Some d => dict_truthy d
  | None => false
  end.

Definition handle_created_event (input : AccountEvent) : M World unit :=
  let key := "OnBoarding " +:+ account input in
  begin <- time ;;
  identifier <- uuid4 ;;
  let transaction := [("begin", PyFloat begin); ("identifier", PyStr identifier)] in
  datastore_assign key (Some transaction).

Definition handle_expired_event (input : AccountEvent) : M World unit :=
  let key := "Maintenance " +:+ account input in
  begin <- time ;;
  identifier <- uuid4 ;;
  let transaction := [("begin", PyFloat begin); ("identifier", PyStr identifier)] in
  datastore_assign key (Some transaction).

Definition update_maintenance_transaction (input : AccountEvent) : M World unit :=
  let key := "Maintenance " +:+ account input in
  found <- datastore_retrieve key ;;
  match found with
  | Some transaction =>
      if dict_truthy transaction then
        datastore_assign key None ;;;
        now <- time ;;
        let transaction := dict_set "end" (PyFloat now) transaction in
        e <- dict_getitem "end" transaction ;;
        b <- dict_getitem "begin" transaction ;;
        duration <- py_sub e b ;;
        let transaction := dict_set "duration" duration transaction in
        emit_spa_event "SuccessfulMaintenanceEvent" transaction
      else ret tt
  | None => ret tt
  end.

Definition update_onboarding_transaction (input : AccountEvent) : M World unit :=
  let key := "OnBoarding " +:+ account input in
  found <- datastore_retrieve key ;;
  match found with
  | Some transaction =>
      if dict_truthy transaction then
        datastore_assign key None ;;;
        now <- time ;;
        let transaction := dict_set "end" (PyFloat now) transaction in
        e <- dict_getitem "end" transaction ;;
        b <- dict_getitem "begin" transaction ;;
        duration <- py_sub e b ;;
        let transaction := dict_set "duration" duration transaction in
        emit_spa_event "SuccessfulOnBoardingEvent" transaction
      else ret tt
  | None => ret tt
  end.

(** The two functions above are one text up to the prefix of the key and
    the label of the event. *)
Definition close_transaction (prefix event : string) (input : AccountEvent)
  : M World unit :=
  let key := prefix +:+ account input in
  found <- datastore_retrieve key ;;
  match found with
  | Some transaction =>
      if dict_truthy transaction then
        datastore_assign key None ;;;
        now <- time ;;
        let transaction := dict_set "end" (PyFloat now) transaction in
        e <- dict_getitem "end" transaction ;;
        b <- dict_getitem "begin" transaction ;;
        duration <- py_sub e b ;;
        let transaction := dict_set "duration" duration transaction in
        emit_spa_event event transaction
      else ret tt
  | None => ret tt
  end.

Definition handle_released_event (input : AccountEvent) : M World unit :=
  update_maintenance_transaction input ;;;
  update_onboarding_transaction input.

(** [handle_account_event], after [Events.decode_account_event]. *)
Definition handle_account_event (input : AccountEvent) : M World string :=
  (if bool_decide (label input = "CreatedAccount") then
     handle_created_event input
   else if bool_decide (label input = "ExpiredAccount") then
     handle_expired_event input
   else if bool_decide (label input = "ReleasedAccount") then
     handle_released_event input
   else ret tt) ;;;
  ret ("[OK] " +:+ label input +:+ " " +:+ account input).

(** *** Vocabulary of the properties of metering *)

(** A record as the starting handlers write it, possibly with more keys:
    a float under begin and a string under identifier. *)
Definition open_transaction (t : transaction) : Prop :=
  exists b i, dict_get "begin" t = Some (PyFloat b)
              /\ dict_get "identifier" t = Some (PyStr i).

(** What the ledger holds under a key is nothing or such a record. *)
Definition well_formed (found : option transaction) : Prop :=
  match found with
  | Some t => open_transaction t
  | None => True
  end.

(** The payload of the completion event for the record [t], closed at
    [now]. *)
Definition closed (t : transaction) (b now : float) : transaction :=
  dict_set "duration" (PyFloat (PrimFloat.sub now b))
    (dict_set "end" (PyFloat now) t).

(** The world after the record [t] under [key] was closed. *)
Definition closed_world (key event : string) (t : transaction) (b : float)
    (w : World) : World :=
  {| ledger := delete key (ledger w); clock := clock w; ticks := S (ticks w);
     uuids := uuids w; draws := draws w;
     outbox := outbox w ++ [(event, closed t b (clock w (ticks w)))] |}.

(** [events] is what closing the record [found] emits under the label
    [event]: nothing for no record, else one event whose payload has begin,
    end, duration and identifier, the begin and the identifier of the
    record, and for duration the difference of end and begin. *)
Definition completes (event : string) (found : option transaction)
    (events : list (string * transaction)) : Prop :=
  match found with
  | None => events = []
  | Some t =>
      exists payload b e,
        events = [(event, payload)]
        /\ dict_get "begin" t = Some (PyFloat b)
        /\ dict_get "begin" payload = Some (PyFloat b)
        /\ dict_get "end" payload = Some (PyFloat e)
        /\ dict_get "duration" payload = Some (PyFloat (PrimFloat.sub e b))
        /\ is_Some (dict_get "identifier" payload)
        /\ dict_get "identifier" payload = dict_get "identifier" t
  end.

(** The record that a starting handler writes at its delivery number [n],
    counted from 0, in a row of deliveries from the world [w]: the reading
    of the clock and the identifier drawn at that time. *)
Definition fresh_transaction (w : World) (n : nat) : transaction :=
  [("begin", PyFloat (clock w (n + ticks w)));
   ("identifier", PyStr (uuids w (n + draws w)))].

(** The world after a starting handler has run for the key [key]. *)
Definition started (key : string) (w : World) : World :=
  {| ledger := <[key := fresh_transaction w 0]> (ledger w); clock := clock w;
     ticks := S (ticks w); uuids := uuids w; draws := S (draws w);
     outbox := outbox w |}.

(** The events of [events] that carry the label [event]. *)
Definition labelled (event : string) (events : list (string * transaction))
  : list (string * transaction) :=
  filter (fun ev => ev.1 = event) events.

End Meter.

(** ** lambdas/on_record_handler.py *)

Module Reports.
Import Py.

(** A record of the metering table, as [KeyValueStore.enumerate] yields it
    (module key_value_store is not part of the sources at hand): the two
    parts of its key and, under [value], the stored payload.  The fields of
    a payload are held as the text that the CSV writer prints for them. *)
Record record := { hash : string; range : string; value : dict string }.

(** What [get_reporter] builds: the rows written to [reporter.buffer] so
    far, oldest first, and the [fieldnames] of [reporter.writer]. *)
Record reporter := { buffer : list (list string); fieldnames : list string }.

(** [DictWriter.writeheader] *)
Definition writeheader (r : reporter) : reporter :=
  {| buffer := buffer r ++ [fieldnames r]; fieldnames := fieldnames r |}.

(** [DictWriter.writerow]: a key outside of [fieldnames] is refused
    ([extrasaction='raise']), a missing one is written as the empty text
    ([restval='']); the cells follow the order of [fieldnames]. *)
Definition writerow {St} (r : reporter) (row : dict string) : M St reporter :=
  if bool_decide (Forall (fun k => k ∈ fieldnames r) (dict_keys row)) then
    ret {| buffer := buffer r ++ [(fun k => default "" (dict_get k row)) <$> fieldnames r];
           fieldnames := fieldnames r |}
  else raise ValueError.

Definition get_reporter : reporter :=
  writeheader
    {| buffer := [];
       fieldnames := ["Cost Center"; "Transaction"; "Stamp"; "Account";
                      "Identifier"; "Duration"] |}.

(** The loop of [build_reports], from the reports built so far.  The
    reporter taken out of [reports] is written to and stored back under the
    same label, and no other name refers to it: a reporter is held by
    value. *)
Fixpoint build_reports_from {St} (reports : dict reporter) (records : list record)
  : M St (dict reporter) :=
  match records with
  | [] => ret reports
  | record :: records =>
      let item := value record in
      label <- dict_getitem "cost-center" item ;;
      let reporter := default get_reporter (dict_get label reports) in
      account <- dict_getitem "account" item ;;
      cost_center <- dict_getitem "cost-center" item ;;
      stamp <- dict_getitem "stamp" item ;;
      transaction <- dict_getitem "transaction" item ;;
      identifier <- dict_getitem "identifier" item ;;
      duration <- dict_getitem "duration" item ;;
      let row := [("Account", account); ("Cost Center", cost_center);
                  ("Stamp", stamp); ("Transaction", transaction);
                  ("Identifier", identifier); ("Duration", duration)] in
      reporter <- writerow reporter row ;;
      build_reports_from (dict_set label reporter reports) records
  end.

Definition build_reports {St} (records : list record) : M St (dict reporter) :=
  build_reports_from [] records.

(** *** Vocabulary of the properties of reports *)

(** The header row, in the fixed order of the columns. *)
Definition header : list string :=
  ["Cost Center"; "Transaction"; "Stamp"; "Account"; "Identifier"; "Duration"].

(** The fields that [build_reports] reads in a payload. *)
Definition fields : list string :=
  ["cost-center"; "account"; "stamp"; "transaction"; "identifier"; "duration"].

(** A record whose payload carries all of them. *)
Definition complete (r : record) : Prop :=
  Forall (fun k => is_Some (dict_get k (value r))) fields.

Definition field (k : string) (r : record) : string :=
  default "" (dict_get k (value r)).

Definition cost_center (r : record) : string := field "cost-center" r.

(** The data row of a record, column by column. *)
Definition row_of (r : record) : list string :=
  [field "cost-center" r; field "transaction" r; field "stamp" r;
   field "account" r; field "identifier" r; field "duration" r].

(** The report of a cost center: the header, then one row per record. *)
Definition report_of (rs : list record) : reporter :=
  {| buffer := header :: (row_of <$> rs); fieldnames := header |}.

(** All reporters of [reports] write the columns of [header]. *)
Definition headed (reports : dict reporter) : Prop :=
  forall label known, dict_get label reports = Some known -> fieldnames known = header.

(** One round of the loop, when nothing is raised. *)
Definition add_record (reports : dict reporter) (r : record) : dict reporter :=
  let known := default get_reporter (dict_get (cost_center r) reports) in
  dict_set (cost_center r)
    {| buffer := buffer known ++ [row_of r]; fieldnames := fieldnames known |}
    reports.

End Reports.

(** ** Fixtures of tests/test_account.py and scenarios of the specification *)

Module Fixtures.
Import Py Account.

(** A [Mock] session whose tag listing answers with the given pages, one per
    call: the first call carries no token, page [n] is asked for with the
    token of page [n - 1]. *)
Definition no_accounts : chunk AccountAttrs := {| items := []; NextToken := None |}.

Definition mock_tags (first : chunk Tag) (next : string -> chunk Tag) : Session :=
  {| list_tags_for_resource := fun _ token =>
       match token with None => first | Some t => next t end;
     list_accounts_for_parent := fun _ _ => no_accounts;
     describe_account := fun _ => None |}.

Definition last_page {A} (l : list A) : chunk A := {| items := l; NextToken := None |}.

(** Fixture [valid_tags]: two chunks, the first one with a token. *)
Definition valid_tags : Session :=
  mock_tags
    {| items := [{| Key := "account:owner"; Value := "a@b.com" |};
                 {| Key := "account:state"; Value := "vanilla" |}];
       NextToken := Some "token" |}
    (fun _ => last_page [{| Key := "another_tag"; Value := "another_value" |}]).

Definition absent_owner : Session :=
  mock_tags (last_page [{| Key := "account:state"; Value := "vanilla" |}])
            (fun _ => last_page []).

Definition invalid_owner : Session :=
  mock_tags (last_page [{| Key := "account:owner"; Value := "John Snow" |};
                        {| Key := "account:state"; Value := "vanilla" |}])
            (fun _ => last_page []).

Definition absent_state : Session :=
  mock_tags (last_page [{| Key := "account:owner"; Value := "a@b.com" |}])
            (fun _ => last_page []).

Definition invalid_state : Session :=
  mock_tags (last_page [{| Key := "account:owner"; Value := "a@b.com" |};
                        {| Key := "account:state"; Value := "*alien*" |}])
            (fun _ => last_page []).

(** The scenario of the maintenance scanner: one organizational unit with
    three accounts on one page; the first is active and released, the second
    active and assigned, the third released and suspended. *)
Definition account_item (id status : string) : AccountAttrs :=
  {| Id := id; Arn := "arn:aws:some-arn"; Email := "a@b.com";
     Name := "account-" +:+ id; Status := status |}.

Definition three_accounts : Session :=
  {| list_tags_for_resource := fun account _ =>
       last_page [{| Key := "account:owner"; Value := "a@b.com" |};
                  {| Key := "account:state";
                     Value := if bool_decide (account = "222222222222")
                              then "assigned" else "released" |}];
     list_accounts_for_parent := fun _ _ =>
       last_page [account_item "111111111111" "ACTIVE";
                  account_item "222222222222" "ACTIVE";
                  account_item "333333333333" "SUSPENDED"];
     describe_account := fun account =>
       Some (account_item account
               (if bool_decide (account = "333333333333")
                then "SUSPENDED" else "ACTIVE")) |}.

(** A world of the metering engine: the clock reads 1000.0, then 1060.5,
    then 2000.0 for ever; the ledger holds the given records. *)
Definition meter_world (records : list (string * Meter.transaction)) : Meter.World :=
  {| Meter.ledger := list_to_map records;
     Meter.clock := fun n =>
       match n with 0 => 1000.0%float | 1 => 1060.5%float | _ => 2000.0%float end;
     Meter.ticks := 0;
     Meter.uuids := fun n =>
       match n with 0 => "uuid-0" | 1 => "uuid-1" | _ => "uuid-n" end;
     Meter.draws := 0;
     Meter.outbox := [] |}.

(** One open onboarding transaction, begun at 900.0. *)
Definition onboarding_open : list (string * Meter.transaction) :=
  [("OnBoarding 123456789012",
    [("begin", Py.PyFloat 900.0%float); ("identifier", Py.PyStr "some-uuid")])].

(** Five records of a reporting window, over three cost centers. *)
Definition activity (center account stamp transaction identifier duration : string)
  : Reports.record :=
  {| Reports.hash := String.substring 0 10 stamp;
     Reports.range := String.substring 11 15 stamp;
     Reports.value :=
       [("cost-center", center); ("account", account); ("stamp", stamp);
        ("transaction", transaction); ("identifier", identifier);
        ("duration", duration)] |}.

Definition five_days : list Reports.record :=
  [activity "Tools" "111111111111" "2023-03-01T07:10:00.000000" "on-boarding" "id-1" "12.5";
   activity "Data" "222222222222" "2023-03-02T08:20:00.000000" "maintenance" "id-2" "7.25";
   activity "Tools" "333333333333" "2023-03-03T09:30:00.000000" "on-boarding" "id-3" "3.0";
   activity "Labs" "444444444444" "2023-03-04T10:40:00.000000" "maintenance" "id-4" "9.75";
   activity "Data" "555555555555" "2023-03-05T11:50:00.000000" "on-boarding" "id-5" "1.5"].

(** A world with the given environment, one session for every purpose, no
    call made and nothing logged yet. *)
Definition world (env : list (string * string)) (units : list string)
    (s : Session) : World :=
  {| environ := list_to_map env; default_session := s;
     make_session := fun _ => s; organizational_units := units;
     tag_calls := []; log := [] |}.

Definition live : list (string * string) := [("DRY_RUN", "FALSE")].
Definition dry : list (string * string) := [("DRY_RUN", "true")].

(** The one call that [move] makes for a member of [State], and the record
    that it logs first. *)
Definition state_tag_call (account : string) (member : State) : TagCall :=
  {| ResourceId := account;
     Tags := [{| Key := "account:state"; Value := value member |}] |}.

Definition tagging_record (account : string) (member : State) : level * string :=
  (INFO, "Tagging account '" +:+ account +:+ "' with state '"
         +:+ value member +:+ "'...").

Definition dry_run_record : level * string :=
  (WARNING, "Dry-run mode - account has not been tagged").

End Fixtures.
(** * More of the code: pagination words, the reporting handlers *)

From stdpp Require Import pretty.

(** ** Words over a character set, and the characters of an expression *)

Module Words.
Import Re.

(** All characters of [w] are in the set [ranges]. *)
Fixpoint word (ranges : list (ascii * ascii)) (w : string) : bool :=
  match w with
  | EmptyString => true
  | String c rest => in_chars c ranges && word ranges rest
  end.

(** The characters that an expression can read. *)
Fixpoint alphabet (r : regex) : list (ascii * ascii) :=
  match r with
  | Void | Eps => []
  | Chars ranges => ranges
  | Cat r s | Alt r s => alphabet r ++ alphabet s
  | Star r => alphabet r
  end.

(** The sets of [Account.VALID_EMAIL]. *)
Definition alnum_set : list (ascii * ascii) := [("A", "Z"); ("a", "z"); ("0", "9")]%char.
Definition separator_set : list (ascii * ascii) := [(".", "_")]%char.
Definition host_set : list (ascii * ascii) :=
  [("A", "Z"); ("a", "z"); ("0", "9"); ("-", "-")]%char.
Definition tld_set : list (ascii * ascii) := [("A", "Z"); ("|", "|"); ("a", "z")]%char.

(** [u1 c1 u2 c2 ...]: the segments of a local part, each followed by its
    separator. *)
Definition segments (parts : list (string * ascii)) : string :=
  foldr (fun p rest => p.1 +:+ String p.2 rest) "" parts.

(** [.t1.t2...]: the labels of a domain, each after its dot. *)
Definition dotted (labels : list string) : string :=
  foldr (fun t rest => "." +:+ t +:+ rest) "" labels.

End Words.

(** ** Scenarios for the properties beyond the specification *)

Module Scenarios.
Import Py Account Fixtures.

(** The listing of test_list: two pages of accounts, the first one with a
    token. *)
Definition two_pages_of_accounts : Session :=
  {| list_tags_for_resource := fun _ _ => last_page [];
     list_accounts_for_parent := fun _ token =>
       match token with
       | None => {| items := [account_item "123456789012" "ACTIVE";
                              account_item "234567890123" "ACTIVE"];
                    NextToken := Some "token" |}
       | Some _ => last_page [account_item "345678901234" "ACTIVE"]
       end;
     describe_account := fun _ => None |}.

(** A provider that hands out a token with every page. *)
Definition endless : Session :=
  {| list_tags_for_resource := fun _ _ =>
       {| items := [{| Key := "account:state"; Value := "vanilla" |}];
          NextToken := Some "more" |};
     list_accounts_for_parent := fun _ _ =>
       {| items := []; NextToken := Some "more" |};
     describe_account := fun _ => None |}.


End Scenarios.

(** ** lambdas/on_record_handler.py: the reporting handlers *)

Module Reporting.
Import Py Reports.

(** A [datetime.date].  The class only builds dates of the calendar:
    see [valid_date]. *)
Record date := { year : nat; month : nat; day : nat }.

Definition is_leap (y : nat) : bool :=
  (y mod 4 =? 0) && (negb (y mod 100 =? 0) || (y mod 400 =? 0)).

Definition days_in_month (y m : nat) : nat :=
  match m with
  | 2 => if is_leap y then 29 else 28
  | 4 | 6 | 9 | 11 => 30
  | _ => 31
  end.

(** [datetime.MAXYEAR], 9999 *)
Definition MAXYEAR : nat := 99 * 101.

Definition valid_date (d : date) : Prop :=
  1 <= year d <= MAXYEAR /\ 1 <= month d <= 12
  /\ 1 <= day d <= days_in_month (year d) (month d).

(** The format [0Nd] of a number: its decimal digits, after as many zeros
    as it takes to fill [width] characters. *)
Fixpoint zeros (k : nat) (s : string) : string :=
  match k with
  | 0 => s
  | S k => String "0"%char (zeros k s)
  end.

Definition format_0d (width n : nat) : string :=
  let digits := pretty n in
  zeros (width - String.length digits) digits.

(** [d.isoformat()] *)
Definition isoformat (d : date) : string :=
  format_0d 4 (year d) +:+ "-" +:+ format_0d 2 (month d) +:+ "-"
  +:+ format_0d 2 (day d).

(** [s[:10]] *)
Definition slice10 (s : string) : string := String.substring 0 10 s.

(** ['/'.join(parts)] *)
Fixpoint join (parts : list string) : string :=
  match parts with
  | [] => ""
  | [part] => part
  | part :: parts => part +:+ "/" +:+ join parts
  end.

(** One call [put_object(Bucket=..., Key=..., Body=...)] of the S3 client;
    the body is the content of a buffer, held as its rows. *)
Record PutObject := { Bucket : string; Key : string; Body : list (list string) }.

(** The world of the reporting handlers: the date of the day, [os.environ],
    what [KeyValueStore.enumerate] yields for each hash of the metering
    table (module key_value_store is not part of the sources at hand), and
    the objects put so far. *)
Record World := {
  today : date;
  environ : gmap string string;
  table : string -> list record;
  put_objects : list PutObject
}.

(** [os.environ[k]] *)
Definition os_environ (k : string) : M World string := fun w =>
  match environ w !! k with
  | Some v => (Ok v, w)
  | None => (Raise (KeyError k), w)
  end.

(** [day or date.today()]: a date is never false. *)
Definition day_or_today (day : option date) : M World date :=
  match day with
  | Some d => ret d
  | None => gets today
  end.

(** [d.replace(day=k)] *)
Definition replace_day (d : date) (k : nat) : M World date :=
  if (1 <=? k) && (k <=? days_in_month (year d) (month d))
  then ret {| year := year d; month := month d; day := k |}
  else raise ValueError.

(** [[f(x) for x in xs]] *)
Fixpoint comprehension {A B} (f : A -> M World B) (xs : list A) : M World (list B) :=
  match xs with
  | [] => ret []
  | x :: xs =>
      y <- f x ;;
      ys <- comprehension f xs ;;
      ret (y :: ys)
  end.

Definition get_hashes (day : option date) : M World (list string) :=
  day <- day_or_today day ;;
  comprehension
    (fun x => d <- replace_day day (x + 1) ;; ret (slice10 (isoformat d)))
    (seq 0 (Reporting.day day)).

(** [chain] of the enumerations of the hashes, in order. *)
Definition get_records (day : option date) : M World (list record) :=
  hashes <- get_hashes day ;;
  gets (fun w => concat (table w <$> hashes)).

Definition get_report_key (label : string) (day : option date) : M World string :=
  day <- day_or_today day ;;
  prefix <- os_environ "REPORTING_ACTIVITIES_PREFIX" ;;
  ret (join [prefix; label;
             format_0d 4 (year day) +:+ "-" +:+ format_0d 2 (month day) +:+ "-"
             +:+ label +:+ "-activities.csv"]).

(** [boto3.client("s3").put_object(Bucket=..., Key=..., Body=...)] *)
Definition put_object (bucket key : string) (body : list (list string))
  : M World unit :=
  modify (fun w =>
    {| today := today w; environ := environ w; table := table w;
       put_objects := put_objects w
                      ++ [{| Bucket := bucket; Key := key; Body := body |}] |}).

Definition store_report (label : string) (report : list (list string))
  : M World unit :=
  bucket <- os_environ "REPORTS_BUCKET_NAME" ;;
  key <- get_report_key label None ;;
  put_object bucket key report.

Definition handle_daily_reporting (day : option date) : M World string :=
  records <- get_records day ;;
  reports <- build_reports records ;;
  for_each reports (fun entry => store_report entry.1 (buffer entry.2)) ;;;
  ret "[OK]".

(** [d - timedelta(days=1)]; there is no day before the first one of
    year 1. *)
Definition minus_one_day (d : date) : option date :=
  if 1 <? day d then
    Some {| year := year d; month := month d; day := day d - 1 |}
  else if 1 <? month d then
    Some {| year := year d; month := month d - 1;
            day := days_in_month (year d) (month d - 1) |}
  else if 1 <? year d then
    Some {| year := year d - 1; month := 12; day := 31 |}
  else None.

(** How [handle_monthly_reporting] ends: with the [OverflowError] of the
    subtraction of dates, or as the rest of its body does. *)
Inductive monthly (A : Type) :=
  | OverflowError
  | Went (a : A).
Arguments OverflowError {A}.
Arguments Went {A} a.

Definition handle_monthly_reporting (day : option date) (w : World)
  : monthly (outcome string * World) :=
  match (day <- day_or_today day ;; replace_day day 1) w with
  | (Ok first, w) =>
      match minus_one_day first with
      | Some last_day_of_previous_month =>
          Went ((records <- get_records (Some last_day_of_previous_month) ;;
                 reports <- build_reports records ;;
                 for_each reports (fun entry => store_report entry.1 (buffer entry.2)) ;;;
                 ret "[OK]") w)
      | None => OverflowError
      end
  | (Raise e, w) => Went (Raise e, w)
  | (OutOfFuel, w) => Went (OutOfFuel, w)
  end.

(** *** Vocabulary of the properties of the reporting handlers *)

(** The days 1 to [n] of the month of [d], as hashes of the table. *)
Definition month_days (d : date) (n : nat) : list string :=
  (fun k => isoformat {| year := year d; month := month d; day := k |}) <$> seq 1 n.

(** The records of the days 1 to [day d] of the month of [d]. *)
Definition window (w : World) (d : date) : list record :=
  concat (table w <$> month_days d (day d)).

(** The object that holds the report of a cost center on the records
    [records], for a run of this day. *)
Definition report_object (w : World) (bucket prefix : string)
    (records : list record) (label : string) : PutObject :=
  {| Bucket := bucket;
     Key := prefix +:+ "/" +:+ label +:+ "/"
            +:+ format_0d 4 (year (today w)) +:+ "-"
            +:+ format_0d 2 (month (today w)) +:+ "-" +:+ label
            +:+ "-activities.csv";
     Body := header :: (row_of <$> filter (fun r => cost_center r = label) records) |}.

(** The world after more objects were put. *)
Definition stored (w : World) (objects : list PutObject) : World :=
  {| today := today w; environ := environ w; table := table w;
     put_objects := put_objects w ++ objects |}.

(** The first field of [fields] that the payload of a record lacks. *)
Definition first_missing (r : record) : option string :=
  List.find (fun k => bool_decide (dict_get k (value r) = None)) fields.

End Reporting.

Module ReportingScenarios.
Import Reports Reporting Fixtures.

(** A table that holds the five records of [five_days], each under the
    hash of its day, and a world of the 20th of April 2023 with the bucket
    and the prefix configured. *)
Definition march_table (hash : string) : list record :=
  filter (fun r => Reports.hash r = hash) five_days.

Definition reporting_world (env : list (string * string)) : World :=
  {| today := {| year := 2023; month := 4; day := 20 |};
     environ := list_to_map env;
     table := march_table;
     put_objects := [] |}.

Definition configured : list (string * string) :=
  [("REPORTS_BUCKET_NAME", "reports"); ("REPORTING_ACTIVITIES_PREFIX", "activities")].

End ReportingScenarios.

(** * Properties *)


(** ** The monad and the world of account.py *)

Lemma bind_ok {St A B} (m : M St A) (k : A -> M St B) w a w' :
  m w = (Ok a, w') -> bind m k w = k a w'.
Proof. unfold bind. by intros ->. Qed.

Section WorldFacts.
Import Py Account.

Lemma logging_run l msg w : logging l msg w = (Ok tt, logged w (l, msg)).
Proof. reflexivity. Qed.

Lemma os_environ_get_run k w : os_environ_get k w = (Ok (environ w !! k), w).
Proof. reflexivity. Qed.

(** Looking for a session always gives one, and touches nothing. *)
Lemma get_session_run w : exists s, get_session w = (Ok s, w).
Proof.
  unfold get_session. rewrite (bind_ok _ _ _ _ _ (os_environ_get_run _ _)).
  destruct (environ w !! "ROLE_ARN_TO_MANAGE_ACCOUNTS") as [arn|];
    [destruct (truthy_str (Some arn))|]; eexists; reflexivity.
Qed.

Lemma session_or_run session w : exists s, session_or session w = (Ok s, w).
Proof.
  destruct session as [s|]; [by exists s|]. apply get_session_run.
Qed.
End WorldFacts.

(** ** Account.move *)

Section MoveFacts.
Import Py Account Fixtures.

(** C4: for every account and every argument that is not a member of
    [State] (a raw string or a namespace that carries a valid state string
    included), [move] raises [ValueError] and leaves the world as it was:
    no call to [tag_resource] is made. *)
Theorem move_rejects_non_member account state session w :
  isinstance_State state = false ->
  move account state session w = (Raise ValueError, w)
  /\ tag_calls (move account state session w).2 = tag_calls w.
Proof.
  intros Hty. destruct state; simpl in Hty; try discriminate; done.
Qed.

Lemma move_rejects_non_member_witness :
  let w := world live [] valid_tags in
  let raw := PyNamespace [("value", "released")] in
  isinstance_State raw = false
  /\ move "0123456789012" raw None w = (Raise ValueError, w)
  /\ tag_calls (move "0123456789012" raw None w).2 = tag_calls w.
Proof.
  intros w raw. split; [reflexivity|].
  apply (move_rejects_non_member "0123456789012" raw None w).
  reflexivity.
Defined.

(** C5: for every account and every member of [State], [move] returns;
    when [DRY_RUN] is the text FALSE it makes exactly one call to
    [tag_resource], which sets tag account:state to the value of the
    member; when [DRY_RUN] is anything else, or unset, it makes no call
    and only logs: the tagging record, then the dry-run warning. *)
Theorem move_tag_mutations account member session w :
  exists w',
    move account (PyState member) session w = (Ok tt, w')
    /\ (environ w !! "DRY_RUN" = Some "FALSE" ->
          tag_calls w' = tag_calls w ++ [state_tag_call account member])
    /\ (environ w !! "DRY_RUN" <> Some "FALSE" ->
          tag_calls w' = tag_calls w
          /\ log w' = log w ++ [tagging_record account member; dry_run_record]).
Proof.
  unfold move.
  rewrite (bind_ok _ _ _ _ _ (logging_run _ _ _)).
  rewrite (bind_ok _ _ _ _ _ (os_environ_get_run _ _)). simpl.
  destruct (session_or_run session (logged w (tagging_record account member)))
    as [s Hs].
  case_bool_decide as Hdry.
  - rewrite (bind_ok _ _ _ _ _ Hs).
    unfold bind, tag_resource, logging, modify. simpl.
    eexists; split; [reflexivity|]. simpl. split; [done|]. intros; done.
  - unfold logging, modify.
    eexists; split; [reflexivity|]. simpl. split; [intros; done|].
    intros _. split; [done|]. by rewrite <- app_assoc.
Qed.

Lemma move_tag_mutations_witness :
  exists w',
    move "0123456789012" (PyState EXPIRED) None (world live [] valid_tags) = (Ok tt, w')
    /\ tag_calls w' = [state_tag_call "0123456789012" EXPIRED].
Proof.
  destruct (move_tag_mutations "0123456789012" EXPIRED None (world live [] valid_tags))
    as (w' & Hrun & Hlive & _).
  exists w'. split; [exact Hrun|]. apply Hlive. reflexivity.
Defined.

(** C10: while the dry-run toggle is active ([DRY_RUN] is not the text
    FALSE), an argument that is not a member of [State] still makes [move]
    raise [ValueError]: the check of the type comes first.  Dry-run only
    withholds the call to [tag_resource], which a member would cause. *)
Theorem move_dry_run_keeps_type_check account state session w :
  environ w !! "DRY_RUN" <> Some "FALSE" ->
  (isinstance_State state = false ->
     move account state session w = (Raise ValueError, w))
  /\ (isinstance_State state = true ->
        (move account state session w).1 = Ok tt
        /\ tag_calls (move account state session w).2 = tag_calls w).
Proof.
  intros Hdry. split; intros Hty.
  - destruct state; simpl in Hty; try discriminate; done.
  - destruct state as [| | |member|]; simpl in Hty; try discriminate.
    unfold move.
    rewrite (bind_ok _ _ _ _ _ (logging_run _ _ _)).
    rewrite (bind_ok _ _ _ _ _ (os_environ_get_run _ _)). cbn [environ logged].
    rewrite bool_decide_eq_false_2 by done. done.
Qed.

Lemma move_dry_run_keeps_type_check_witness :
  let w := world dry [] valid_tags in
  move "0123456789012" (PyStr "expired") None w = (Raise ValueError, w)
  /\ (move "0123456789012" (PyState EXPIRED) None w).1 = Ok tt
  /\ tag_calls (move "0123456789012" (PyState EXPIRED) None w).2 = [].
Proof.
  intros w.
  destruct (move_dry_run_keeps_type_check "0123456789012" (PyStr "expired") None w)
    as [Hraise _]; [vm_compute; discriminate|].
  destruct (move_dry_run_keeps_type_check "0123456789012" (PyState EXPIRED) None w)
    as [_ Hok]; [vm_compute; discriminate|].
  split; [apply Hraise; reflexivity|]. apply Hok. reflexivity.
Defined.
End MoveFacts.
(** ** Regular expressions: the matcher decides membership *)

Section RegexFacts.
Import Re.

Lemma append_nil_l v : "" +:+ v = v.
Proof. reflexivity. Qed.

Lemma append_cons c u v : String c u +:+ v = String c (u +:+ v).
Proof. reflexivity. Qed.

Lemma append_empty_inv u v : u +:+ v = "" -> u = "" /\ v = "".
Proof.
  destruct u; [rewrite append_nil_l; done | rewrite append_cons; discriminate].
Qed.

Lemma nullable_spec r : nullable r = true <-> Matches r "".
Proof.
  induction r as [| |rs|r IHr s IHs|r IHr s IHs|r IHr]; simpl.
  - split; [discriminate | inversion 1].
  - split; [constructor | done].
  - split; [discriminate | inversion 1].
  - rewrite andb_true_iff, IHr, IHs. split.
    + intros [Hr Hs]. apply (MCat _ _ "" "" Hr Hs).
    + inversion 1 as [| |? ? u v Hu Hv Heq| | | |]; subst.
      match goal with H : _ +:+ _ = "" |- _ => apply append_empty_inv in H as [-> ->] end.
      done.
  - rewrite orb_true_iff, IHr, IHs. split.
    + intros [H|H]; [by apply MAltL | by apply MAltR].
    + inversion 1; subst; auto.
  - split; [constructor | done].
Qed.

(** A non-empty word of [r*] starts with a non-empty word of [r]. *)
Lemma star_cons_inv r c w :
  Matches (Star r) (String c w) ->
  exists u v, w = u +:+ v /\ Matches r (String c u) /\ Matches (Star r) v.
Proof.
  intros H. remember (Star r) as e eqn:He. remember (String c w) as t eqn:Ht.
  revert c w Ht.
  induction H as [| | | | | |r' u v Hu _ Hv IHv]; intros a t Ht; try discriminate.
  inversion He; subst r'.
  destruct u as [|a' u]; [rewrite append_nil_l in Ht | rewrite append_cons in Ht].
  - by apply IHv.
  - inversion Ht; subst. by exists u, v.
Qed.

Lemma deriv_spec r : forall c w, Matches (deriv c r) w <-> Matches r (String c w).
Proof.
  induction r as [| |rs|r IHr s IHs|r IHr s IHs|r IHr]; intros c w; simpl.
  - split; inversion 1.
  - split; inversion 1.
  - destruct (in_chars c rs) eqn:Hin; split.
    + inversion 1; subst. by constructor.
    + inversion 1; subst. constructor.
    + inversion 1.
    + inversion 1; subst. congruence.
  - assert (Hcat : Matches (Cat (deriv c r) s) w ->
                   Matches (Cat r s) (String c w)).
    { inversion 1 as [| |? ? u v Hu Hv| | | |]; subst.
      apply IHr in Hu. apply (MCat _ _ (String c u) v Hu Hv). }
    assert (Hsplit : Matches (Cat r s) (String c w) ->
              Matches (Cat (deriv c r) s) w
              \/ (Matches r "" /\ Matches s (String c w))).
    { inversion 1 as [| |? ? u v Hu Hv [Hr Hs] Heq| | | |]; subst.
      destruct u as [|c' u];
        [rewrite append_nil_l in Heq | rewrite append_cons in Heq].
      - right. rewrite append_nil_l. subst v. done.
      - left. inversion Heq; subst. apply IHr in Hu. by constructor. }
    destruct (nullable r) eqn:Hnull.
    + split.
      * inversion 1; subst; [by apply Hcat|].
        apply nullable_spec in Hnull.
        match goal with H : Matches (deriv c s) w |- _ => apply IHs in H;
          apply (MCat _ _ "" (String c w) Hnull H) end.
      * intros H. destruct (Hsplit H) as [H'|[_ H']]; [by apply MAltL|].
        apply MAltR. by apply IHs.
    + split; [exact Hcat|].
      intros H. destruct (Hsplit H) as [H'|[H' _]]; [done|].
      apply nullable_spec in H'. congruence.
  - split.
    + inversion 1; subst; [apply MAltL; by apply IHr | apply MAltR; by apply IHs].
    + inversion 1; subst; [apply MAltL; by apply IHr | apply MAltR; by apply IHs].
  - split.
    + inversion 1 as [| |? ? u v Hu Hv| | | |]; subst.
      apply IHr in Hu. apply (MStarCons _ (String c u) v Hu Hv).
    + intros H. apply star_cons_inv in H as (u & v & -> & Hu & Hv).
      constructor; [by apply IHr | done].
Qed.

(** [fullmatch] answers true exactly on the words of the expression. *)
Lemma fullmatch_spec r text : fullmatch r text = true <-> Matches r text.
Proof.
  revert r. induction text as [|c text IH]; intros r; simpl.
  - apply nullable_spec.
  - rewrite IH. apply deriv_spec.
Qed.
End RegexFacts.

(** ** Dictionaries *)

Section DictFacts.
Import Py.
Context {V : Type}.
Implicit Types (d : dict V) (k : string) (v : V).

Lemma dict_get_set_eq k v d : dict_get k (dict_set k v d) = Some v.
Proof.
  induction d as [|[k' v'] d IH]; simpl.
  - by rewrite decide_True.
  - destruct (decide (k = k')) as [->|Hne]; simpl.
    + by rewrite decide_True.
    + by rewrite decide_False.
Qed.

Lemma dict_get_set_ne k k' v d :
  k <> k' -> dict_get k' (dict_set k v d) = dict_get k' d.
Proof.
  intros Hne. induction d as [|[k0 v0] d IH]; simpl.
  - by rewrite decide_False by congruence.
  - destruct (decide (k = k0)) as [->|Hk]; simpl.
    + destruct (decide (k' = k0)); [congruence | done].
    + destruct (decide (k' = k0)); [done | apply IH].
Qed.

Lemma dict_set_cons_ne k v k' v' d :
  k <> k' -> dict_set k v ((k', v') :: d) = (k', v') :: dict_set k v d.
Proof. intros Hne. simpl. by rewrite decide_False. Qed.

Lemma dict_keys_get k d : k ∈ dict_keys d <-> is_Some (dict_get k d).
Proof.
  unfold dict_keys. induction d as [|[k' v'] d IH]; simpl.
  - rewrite elem_of_nil. split; [done | by intros [? ?]].
  - rewrite elem_of_cons, IH. destruct (decide (k = k')) as [->|Hne].
    + split; [by eexists | by left].
    + split; [by intros [?|?] | by right].
Qed.

Lemma dict_keys_set k v d :
  dict_keys (dict_set k v d)
  = if decide (k ∈ dict_keys d) then dict_keys d else dict_keys d ++ [k].
Proof.
  unfold dict_keys. induction d as [|[k' v'] d IH].
  - destruct (decide (k ∈ ([] : dict V).*1)) as [Hin|_]; [|done].
    by apply elem_of_nil in Hin.
  - destruct (decide (k ∈ ((k', v') :: d).*1)) as [Hin|Hout];
      csimpl; destruct (decide (k = k')) as [->|Hne]; csimpl; try done.
    + rewrite IH. rewrite decide_True; [done|].
      change (k ∈ k' :: d.*1) in Hin. apply elem_of_cons in Hin as [?|?]; done.
    + exfalso. apply Hout. apply list_elem_of_here.
    + rewrite IH. rewrite decide_False; [done|].
      intros Hin. apply Hout. by apply list_elem_of_further.
Qed.
End DictFacts.

Section ListTagsFacts.
Import Py Account Fixtures.

(** Storing the tags one after the other: the keys stay in the order in
    which they are first seen, and the last value given to a key wins. *)
Lemma store_tags_keys (found : list Tag) (tags : dict string) :
  dict_keys (store_tags tags found)
  = foldl (fun seen k => if decide (k ∈ seen) then seen else seen ++ [k])
          (dict_keys tags) (Key <$> found).
Proof.
  revert tags. induction found as [|item found IH]; intros tags; simpl; [done|].
  rewrite IH, dict_keys_set. done.
Qed.

Lemma store_tags_get (found : list Tag) (tags : dict string) k :
  dict_get k (store_tags tags found)
  = match last (filter (fun item => Key item = k) found) with
    | Some item => Some (Value item)
    | None => dict_get k tags
    end.
Proof.
  induction found as [|item found IH] using rev_ind; [done|].
  unfold store_tags in *. rewrite foldl_snoc, filter_app.
  destruct (decide (Key item = k)) as [<-|Hne].
  - rewrite filter_cons_True, filter_nil by done.
    rewrite last_snoc. apply dict_get_set_eq.
  - rewrite filter_cons_False, filter_nil, app_nil_r by done.
    rewrite dict_get_set_ne by done. apply IH.
Qed.

Lemma paginate_pages {A} (fetch : option string -> chunk A) token cs :
  pages fetch token cs ->
  forall fuel, length cs <= fuel ->
    paginate fuel fetch token = Some (concat (items <$> cs)).
Proof.
  induction 1 as [token chunk Hlast|token rest chunk Hmore Hrest IH];
    intros [|fuel] Hfuel; simpl in Hfuel; try lia; simpl.
  - fold chunk. rewrite Hlast. by rewrite app_nil_r.
  - fold chunk. rewrite Hmore, IH by lia. done.
Qed.

Lemma iterate_tags_run fuel account session w s cs :
  session_or session w = (Ok s, w) ->
  pages (list_tags_for_resource s account) None cs ->
  length cs <= fuel ->
  iterate_tags fuel account session w = (Ok (concat (items <$> cs)), w).
Proof.
  intros Hs Hpages Hfuel. unfold iterate_tags.
  rewrite (bind_ok _ _ _ _ _ Hs).
  by rewrite (paginate_pages _ _ _ Hpages fuel Hfuel).
Qed.

(** C9: when the listing of the tags of an account comes to an end after
    the pages [cs], [list_tags] returns one mapping made of the tags of
    all pages: its keys are the keys of the tags in the order in which
    they are first seen, and the value of a key is the one of the last tag
    that carries it, so that a later page overwrites an earlier one.  For
    two pages, of tags owner and state and then of a tag other, with
    distinct keys, the mapping has exactly these three entries, in that
    order. *)
Theorem list_tags_merges_pages fuel account session w s cs :
  session_or session w = (Ok s, w) ->
  pages (list_tags_for_resource s account) None cs ->
  length cs <= fuel ->
  exists tags,
    list_tags fuel account session w = (Ok tags, w)
    /\ dict_keys tags = first_seen (Key <$> concat (items <$> cs))
    /\ (forall k, dict_get k tags
                  = Value <$> last (filter (fun item => Key item = k)
                                           (concat (items <$> cs))))
    /\ (forall owner state other,
          items <$> cs = [[owner; state]; [other]] ->
          NoDup [Key owner; Key state; Key other] ->
          tags = [(Key owner, Value owner); (Key state, Value state);
                  (Key other, Value other)]).
Proof.
  intros Hs Hpages Hfuel.
  exists (store_tags [] (concat (items <$> cs))). split; [|split; [|split]].
  - unfold list_tags.
    by rewrite (bind_ok _ _ _ _ _ (iterate_tags_run _ _ _ _ _ _ Hs Hpages Hfuel)).
  - apply (store_tags_keys _ []).
  - intros k. rewrite store_tags_get.
    by destruct (last _).
  - intros owner state other -> Hdup.
    apply NoDup_cons in Hdup as [Hos Hdup].
    apply NoDup_cons in Hdup as [Hso _].
    rewrite !elem_of_cons, elem_of_nil in Hos.
    rewrite elem_of_cons, elem_of_nil in Hso.
    change (store_tags [] (concat [[owner; state]; [other]]))
      with (dict_set (Key other) (Value other)
              (dict_set (Key state) (Value state)
                 [(Key owner, Value owner)])).
    rewrite (dict_set_cons_ne (Key state)) by naive_solver.
    rewrite (dict_set_cons_ne (Key other)) by naive_solver.
    change (dict_set (Key state) (Value state) [])
      with [(Key state, Value state)].
    rewrite (dict_set_cons_ne (Key other)) by naive_solver.
    done.
Qed.

Lemma list_tags_merges_pages_witness :
  list_tags 2 "123456789012" (Some valid_tags) (world live [] valid_tags)
  = (Ok [("account:owner", "a@b.com"); ("account:state", "vanilla");
         ("another_tag", "another_value")],
     world live [] valid_tags).
Proof.
  destruct (list_tags_merges_pages 2 "123456789012" (Some valid_tags)
              (world live [] valid_tags) valid_tags
              [list_tags_for_resource valid_tags "123456789012" None;
               list_tags_for_resource valid_tags "123456789012" (Some "token")])
    as (tags & Hrun & _ & _ & Hthree).
  - reflexivity.
  - apply (pages_more _ None); [reflexivity|].
    apply (pages_last _ (Some "token")). reflexivity.
  - simpl. lia.
  - rewrite Hrun. f_equal. f_equal.
    apply (Hthree {| Key := "account:owner"; Value := "a@b.com" |}
                  {| Key := "account:state"; Value := "vanilla" |}
                  {| Key := "another_tag"; Value := "another_value" |});
      [reflexivity|].
    repeat constructor; rewrite ?elem_of_cons, ?elem_of_nil; simpl;
      intros H; repeat destruct H as [H|H]; try discriminate; done.
Defined.
End ListTagsFacts.

(** ** Account.validate_tags *)

Section ValidateTagsFacts.
Import Py Re Account Fixtures.

Lemma validate_state_spec text :
  validate_state text = true
  <-> text ∈ ["vanilla"; "assigned"; "released"; "expired"].
Proof. unfold validate_state. by rewrite bool_decide_eq_true. Qed.

Lemma validate_owner_spec text :
  validate_owner text = true <-> Matches VALID_EMAIL text.
Proof. apply fullmatch_spec. Qed.

(** The four checks, in the order of the source, as one boolean. *)
Lemma validate_tags_run fuel account session w tags w' :
  list_tags fuel account session w = (Ok tags, w') ->
  validate_tags fuel account session w
  = (match dict_get "account:owner" tags, dict_get "account:state" tags with
     | Some owner, Some state =>
         if validate_owner owner && validate_state state
         then Ok tt else Raise ValueError
     | _, _ => Raise ValueError
     end, w').
Proof.
  intros Hlist. unfold validate_tags. rewrite (bind_ok _ _ _ _ _ Hlist).
  destruct (dict_get "account:owner" tags) as [owner|] eqn:Howner.
  - rewrite bool_decide_eq_true_2 by (apply dict_keys_get; by rewrite Howner).
    cbn [negb]. unfold dict_getitem at 1. rewrite Howner.
    unfold bind at 1. unfold ret at 1.
    destruct (validate_owner owner); cbn [negb andb].
    + destruct (dict_get "account:state" tags) as [state|] eqn:Hstate.
      * rewrite bool_decide_eq_true_2 by (apply dict_keys_get; by rewrite Hstate).
        cbn [negb]. unfold dict_getitem. rewrite Hstate.
        unfold bind, ret. by destruct (validate_state state).
      * rewrite bool_decide_eq_false_2; [done|].
        rewrite dict_keys_get, Hstate. by intros [? ?].
    + by destruct (dict_get "account:state" tags).
  - rewrite bool_decide_eq_false_2; [done|].
    rewrite dict_keys_get, Howner. by intros [? ?].
Qed.

(** C3: [validate_tags] returns exactly when the mapping that [list_tags]
    gives for the account holds, under account:owner, a word of the
    owner-email pattern and, under account:state, one of vanilla,
    assigned, released and expired; in every other case it raises
    [ValueError]. *)
Theorem validate_tags_iff fuel account session w tags w' :
  list_tags fuel account session w = (Ok tags, w') ->
  (validate_tags fuel account session w = (Ok tt, w') <-> valid_tag_set tags)
  /\ (~ valid_tag_set tags ->
      validate_tags fuel account session w = (Raise ValueError, w')).
Proof.
  intros Hlist. rewrite (validate_tags_run _ _ _ _ _ _ Hlist).
  unfold valid_tag_set.
  destruct (dict_get "account:owner" tags) as [owner|];
    [destruct (dict_get "account:state" tags) as [state|]|].
  - destruct (validate_owner owner) eqn:Howner;
      [destruct (validate_state state) eqn:Hstate|]; cbn [andb].
    + apply validate_owner_spec in Howner. apply validate_state_spec in Hstate.
      assert (Hvalid : (exists o, Some owner = Some o /\ Matches VALID_EMAIL o)
                       /\ (exists st, Some state = Some st
                             /\ st ∈ ["vanilla"; "assigned"; "released"; "expired"])).
      { split; eexists; (split; [reflexivity|done]). }
      split; [split; [by intros _ | done]|].
      intros Hno. by destruct Hno.
    + split; [split; [discriminate|]|done].
      intros [_ (st & [= <-] & Hst)]. apply validate_state_spec in Hst. congruence.
    + split; [split; [discriminate|]|done].
      intros [(ow & [= <-] & How) _]. apply validate_owner_spec in How. congruence.
  - split; [split; [discriminate|]|done]. by intros [_ (st & [=] & _)].
  - split; [split; [discriminate|]|done]. by intros [(ow & [=] & _) _].
Qed.

Lemma validate_tags_iff_witness :
  validate_tags 2 "123456789012" (Some valid_tags) (world live [] valid_tags)
  = (Ok tt, world live [] valid_tags)
  /\ validate_tags 1 "123456789012" (Some invalid_owner) (world live [] valid_tags)
     = (Raise ValueError, world live [] valid_tags).
Proof.
  split.
  - eapply (validate_tags_iff 2 "123456789012" (Some valid_tags)); [reflexivity|].
    split; eexists; (split; [reflexivity|]).
    + apply validate_owner_spec. reflexivity.
    + apply validate_state_spec. reflexivity.
  - eapply (validate_tags_iff 1 "123456789012" (Some invalid_owner)); [reflexivity|].
    intros [(owner & [= <-] & Hmatch) _].
    apply validate_owner_spec in Hmatch. vm_compute in Hmatch. discriminate.
Defined.
End ValidateTagsFacts.

(** ** The maintenance scanner *)

Section ScannerFacts.
Import Py Account Scanner Fixtures.

Lemma read_only_bind {St A B} (m : M St A) (k : A -> M St B) :
  read_only m -> (forall a, read_only (k a)) -> read_only (bind m k).
Proof.
  intros Hm Hk w. unfold bind. specialize (Hm w).
  destruct (m w) as [[a|e|] w1]; simpl in Hm; subst w1; [apply Hk|done..].
Qed.

Lemma read_only_for_each {St A} (xs : list A) (body : A -> M St unit) :
  (forall x, read_only (body x)) -> read_only (for_each xs body).
Proof.
  intros Hbody. induction xs as [|x xs IH]; [done|].
  simpl. apply read_only_bind; [apply Hbody | intros _; apply IH].
Qed.

Lemma read_only_session_or session : read_only (session_or session).
Proof. intros w. by destruct (session_or_run session w) as [s ->]. Qed.

Lemma read_only_list_tags fuel account session :
  read_only (list_tags fuel account session).
Proof.
  unfold list_tags, iterate_tags.
  apply read_only_bind; [|done].
  apply read_only_bind; [apply read_only_session_or|].
  intros s. by destruct (paginate _ _ _).
Qed.

Lemma read_only_list_ fuel parent session : read_only (list_ fuel parent session).
Proof.
  unfold list_. apply read_only_bind; [apply read_only_session_or|].
  intros s. by destruct (paginate _ _ _).
Qed.

Lemma read_only_describe fuel account session :
  read_only (describe fuel account session).
Proof.
  unfold describe. apply read_only_bind; [apply read_only_session_or|].
  intros s. destruct (describe_account s account); [|done].
  apply read_only_bind; [apply read_only_list_tags | done].
Qed.

(** A tag is a string or is absent: it is never equal to a member of
    [State]. *)
Lemma state_tag_ne_member k tags member :
  py_ne (tags_get k tags) (PyState member) = true.
Proof. unfold tags_get. by destruct (dict_get k tags). Qed.

(** Whatever the accounts are, the scan changes nothing: it makes no call
    to [tag_resource] and does not reach the record that announces an
    expiry. *)
Lemma handle_event_read_only fuel session : read_only (handle_event fuel session).
Proof.
  unfold handle_event. apply read_only_bind; [done|]. intros units.
  apply read_only_for_each. intros unit.
  apply read_only_bind; [apply read_only_list_|]. intros accounts.
  apply read_only_for_each. intros account.
  apply read_only_bind; [apply read_only_describe|]. intros item.
  rewrite state_tag_ne_member. by destruct (is_active item).
Qed.

(** C2, on the code: with three accounts of which only the first is
    released and active, and with [DRY_RUN] off, the scan returns without
    any call to [tag_resource] and without any record logged, where the
    specification has one move of the first account to expired; that move, made
    directly, does tag the account. *)
Theorem handle_event_three_accounts :
  let w := world live ["ou-parent"] three_accounts in
  (list_ 1 "ou-parent" None w).1
    = Ok ["111111111111"; "222222222222"; "333333333333"]
  /\ (fun account => due 1 account w)
       <$> ["111111111111"; "222222222222"; "333333333333"]
     = [true; false; false]
  /\ handle_event 1 None w = (Ok tt, w)
  /\ tag_calls (handle_event 1 None w).2 = []
  /\ (move "111111111111" (PyState EXPIRED) None w).1 = Ok tt
  /\ tag_calls (move "111111111111" (PyState EXPIRED) None w).2
     = [state_tag_call "111111111111" EXPIRED].
Proof.
  intros w. split; [reflexivity|]. split; [reflexivity|].
  assert (Hrun : handle_event 1 None w = (Ok tt, w)).
  { pose proof (handle_event_read_only 1 None w) as Hsame.
    destruct (handle_event 1 None w) as [out w1] eqn:Hev. simpl in Hsame. subst w1.
    f_equal. change out with (out, w).1. rewrite <- Hev. reflexivity. }
  split; [exact Hrun|]. rewrite Hrun. split; [reflexivity|].
  split; reflexivity.
Qed.
End ScannerFacts.

(** ** The metering engine *)

Section MeterFacts.
Import Py Meter.

Lemma update_maintenance_is_close input :
  update_maintenance_transaction input
  = close_transaction "Maintenance " "SuccessfulMaintenanceEvent" input.
Proof. reflexivity. Qed.

Lemma update_onboarding_is_close input :
  update_onboarding_transaction input
  = close_transaction "OnBoarding " "SuccessfulOnBoardingEvent" input.
Proof. reflexivity. Qed.

(** The keys of the two kinds never meet. *)
Lemma kinds_apart x y : "Maintenance " +:+ x <> "OnBoarding " +:+ y.
Proof. discriminate. Qed.

(** No record, or an empty one: nothing happens. *)
Lemma close_absent prefix event input w :
  ledger w !! (prefix +:+ account input) = None ->
  close_transaction prefix event input w = (Ok tt, w).
Proof.
  intros Hnone. unfold close_transaction, bind, datastore_retrieve, gets.
  cbv beta iota zeta. by rewrite Hnone.
Qed.

Lemma close_empty prefix event input w :
  ledger w !! (prefix +:+ account input) = Some ([] : dict pyobj) ->
  close_transaction prefix event input w = (Ok tt, w).
Proof.
  intros Hempty. unfold close_transaction, bind, datastore_retrieve, gets.
  cbv beta iota zeta. by rewrite Hempty.
Qed.

Lemma begin_truthy (t : transaction) v : dict_get "begin" t = Some v -> dict_truthy t = true.
Proof. by destruct t. Qed.

(** A record with a float under begin is deleted, closed and emitted. *)
Lemma close_present prefix event input w t b :
  ledger w !! (prefix +:+ account input) = Some t ->
  dict_get "begin" t = Some (PyFloat b) ->
  close_transaction prefix event input w
  = (Ok tt, closed_world (prefix +:+ account input) event t b w).
Proof.
  intros Hsome Hbegin.
  unfold close_transaction, bind, datastore_retrieve, gets, datastore_assign,
    modify, time, dict_getitem, ret.
  cbv beta iota zeta. rewrite Hsome. rewrite (begin_truthy _ _ Hbegin).
  rewrite dict_get_set_eq. rewrite dict_get_set_ne by discriminate.
  rewrite Hbegin. reflexivity.
Qed.

Lemma closed_completes event t b i now :
  dict_get "begin" t = Some (PyFloat b) ->
  dict_get "identifier" t = Some (PyStr i) ->
  completes event (Some t) [(event, closed t b now)].
Proof.
  intros Hbegin Hid. exists (closed t b now), b, now. unfold closed.
  repeat split; try done.
  - by rewrite !dict_get_set_ne by discriminate.
  - rewrite dict_get_set_ne by discriminate. apply dict_get_set_eq.
  - apply dict_get_set_eq.
  - rewrite !dict_get_set_ne by discriminate. by rewrite Hid.
  - by rewrite !dict_get_set_ne by discriminate.
Qed.

(** Closing one kind, for a record that is absent or well formed. *)
Lemma close_run prefix event input w :
  well_formed (ledger w !! (prefix +:+ account input)) ->
  exists w1 evs,
    close_transaction prefix event input w = (Ok tt, w1)
    /\ ledger w1 = delete (prefix +:+ account input) (ledger w)
    /\ outbox w1 = outbox w ++ evs
    /\ completes event (ledger w !! (prefix +:+ account input)) evs.
Proof.
  intros Hwf.
  destruct (ledger w !! (prefix +:+ account input)) as [t|] eqn:Hfound.
  - destruct Hwf as (b & i & Hbegin & Hid).
    exists (closed_world (prefix +:+ account input) event t b w),
           [(event, closed t b (clock w (ticks w)))].
    split; [by apply close_present|]. repeat split.
    by apply (closed_completes _ _ _ i).
  - exists w, []. split; [by apply close_absent|]. repeat split.
    + symmetry. by apply delete_id.
    + by rewrite app_nil_r.
Qed.

(** What one delivery of a release does, for well-formed records. *)
Lemma handle_released_event_run input w :
  well_formed (ledger w !! ("Maintenance " +:+ account input)) ->
  well_formed (ledger w !! ("OnBoarding " +:+ account input)) ->
  exists w1 m o,
    handle_released_event input w = (Ok tt, w1)
    /\ ledger w1 = delete ("OnBoarding " +:+ account input)
                     (delete ("Maintenance " +:+ account input) (ledger w))
    /\ outbox w1 = outbox w ++ m ++ o
    /\ completes "SuccessfulMaintenanceEvent"
          (ledger w !! ("Maintenance " +:+ account input)) m
    /\ completes "SuccessfulOnBoardingEvent"
          (ledger w !! ("OnBoarding " +:+ account input)) o.
Proof.
  intros Hm Ho. unfold handle_released_event.
  rewrite update_maintenance_is_close, update_onboarding_is_close.
  destruct (close_run "Maintenance " "SuccessfulMaintenanceEvent" input w Hm)
    as (w1 & m & Hrun1 & Hledger1 & Hout1 & Hcomp1).
  assert (Hsame : ledger w1 !! ("OnBoarding " +:+ account input)
                  = ledger w !! ("OnBoarding " +:+ account input)).
  { rewrite Hledger1. apply lookup_delete_ne, kinds_apart. }
  rewrite <- Hsame in Ho.
  destruct (close_run "OnBoarding " "SuccessfulOnBoardingEvent" input w1 Ho)
    as (w2 & o & Hrun2 & Hledger2 & Hout2 & Hcomp2).
  exists w2, m, o. rewrite (bind_ok _ _ _ _ _ Hrun1).
  split; [exact Hrun2|]. split; [by rewrite Hledger2, Hledger1|].
  split; [by rewrite Hout2, Hout1, app_assoc|].
  split; [done|]. by rewrite <- Hsame.
Qed.

(** After a release, a second one finds nothing and does nothing. *)
Lemma handle_released_event_again input w :
  ledger w !! ("Maintenance " +:+ account input) = None ->
  ledger w !! ("OnBoarding " +:+ account input) = None ->
  handle_released_event input w = (Ok tt, w).
Proof.
  intros Hm Ho. unfold handle_released_event.
  rewrite update_maintenance_is_close, update_onboarding_is_close.
  rewrite (bind_ok _ _ _ _ _ (close_absent _ _ _ _ Hm)).
  by apply close_absent.
Qed.

Lemma handle_account_event_released x w out w1 :
  handle_released_event {| label := "ReleasedAccount"; account := x |} w = (out, w1) ->
  handle_account_event {| label := "ReleasedAccount"; account := x |} w
  = (match out with
     | Ok _ => Ok ("[OK] ReleasedAccount " +:+ x)
     | Raise e => Raise e
     | OutOfFuel => OutOfFuel
     end, w1).
Proof.
  intros Hrun. unfold handle_account_event, bind. cbn [label bool_decide decide_rel].
  change (bool_decide ("ReleasedAccount" = "CreatedAccount")) with false.
  change (bool_decide ("ReleasedAccount" = "ExpiredAccount")) with false.
  change (bool_decide ("ReleasedAccount" = "ReleasedAccount")) with true.
  cbv iota. rewrite Hrun. by destruct out.
Qed.

Lemma completes_count event found evs :
  completes event found evs ->
  length (labelled event evs) = if found is Some _ then 1 else 0.
Proof.
  destruct found as [t|]; simpl.
  - intros (payload & b & e & -> & _). unfold labelled.
    by rewrite filter_cons_True, filter_nil.
  - by intros ->.
Qed.

Lemma completes_other event other found evs :
  event <> other -> completes event found evs -> labelled other evs = [].
Proof.
  intros Hne. destruct found as [t|]; simpl.
  - intros (payload & b & e & -> & _). unfold labelled.
    by rewrite filter_cons_False, filter_nil.
  - by intros ->.
Qed.

(** C6: on a ReleasedAccount event for an account, when what the ledger
    holds for each kind is nothing or an open transaction, the engine
    returns normally and emits, for Maintenance and then for OnBoarding:
    nothing when there is no record; otherwise exactly one event, labelled
    SuccessfulMaintenanceEvent or SuccessfulOnBoardingEvent, whose payload
    holds begin, end, duration and identifier with duration the
    difference of end and begin. *)
Theorem released_account_completions x w :
  let input := {| label := "ReleasedAccount"; account := x |} in
  well_formed (ledger w !! ("Maintenance " +:+ x)) ->
  well_formed (ledger w !! ("OnBoarding " +:+ x)) ->
  exists w1 m o,
    handle_account_event input w = (Ok ("[OK] ReleasedAccount " +:+ x), w1)
    /\ outbox w1 = outbox w ++ m ++ o
    /\ completes "SuccessfulMaintenanceEvent" (ledger w !! ("Maintenance " +:+ x)) m
    /\ completes "SuccessfulOnBoardingEvent" (ledger w !! ("OnBoarding " +:+ x)) o.
Proof.
  intros input Hm Ho.
  destruct (handle_released_event_run input w Hm Ho)
    as (w1 & m & o & Hrun & _ & Hout & Hcm & Hco).
  exists w1, m, o. split; [|done].
  subst input. by rewrite (handle_account_event_released _ _ _ _ Hrun).
Qed.

(** C1: delivering the same ReleasedAccount event twice in a row, when
    what the ledger holds for each kind is nothing or an open transaction:
    both deliveries return normally, the first one leaves no record of
    either kind in the ledger, the second one changes nothing, and over
    the two deliveries exactly one completion event is emitted for each
    kind that had a record, none for a kind that had none. *)
Theorem released_account_redelivery x w :
  let input := {| label := "ReleasedAccount"; account := x |} in
  well_formed (ledger w !! ("Maintenance " +:+ x)) ->
  well_formed (ledger w !! ("OnBoarding " +:+ x)) ->
  exists w1 w2 evs,
    handle_account_event input w = (Ok ("[OK] ReleasedAccount " +:+ x), w1)
    /\ ledger w1 !! ("Maintenance " +:+ x) = None
    /\ ledger w1 !! ("OnBoarding " +:+ x) = None
    /\ handle_account_event input w1 = (Ok ("[OK] ReleasedAccount " +:+ x), w2)
    /\ w2 = w1
    /\ outbox w2 = outbox w ++ evs
    /\ length (labelled "SuccessfulMaintenanceEvent" evs)
       = (if ledger w !! ("Maintenance " +:+ x) is Some _ then 1 else 0)
    /\ length (labelled "SuccessfulOnBoardingEvent" evs)
       = (if ledger w !! ("OnBoarding " +:+ x) is Some _ then 1 else 0)
    /\ length evs = length (labelled "SuccessfulMaintenanceEvent" evs)
                    + length (labelled "SuccessfulOnBoardingEvent" evs).
Proof.
  intros input Hm Ho.
  destruct (handle_released_event_run input w Hm Ho)
    as (w1 & m & o & Hrun & Hledger & Hout & Hcm & Hco).
  assert (Hnone_m : ledger w1 !! ("Maintenance " +:+ x) = None).
  { rewrite Hledger. rewrite lookup_delete_ne by (apply not_eq_sym, kinds_apart).
    apply lookup_delete_eq. }
  assert (Hnone_o : ledger w1 !! ("OnBoarding " +:+ x) = None).
  { rewrite Hledger. apply lookup_delete_eq. }
  exists w1, w1, (m ++ o). subst input. cbn [account] in *.
  split; [by rewrite (handle_account_event_released _ _ _ _ Hrun)|].
  split; [done|]. split; [done|].
  split.
  { apply (handle_account_event_released x w1 (Ok tt) w1).
    by apply handle_released_event_again. }
  split; [done|]. split; [done|].
  unfold labelled in *. rewrite !filter_app, !length_app.
  pose proof (completes_count _ _ _ Hcm) as Hm1.
  pose proof (completes_count _ _ _ Hco) as Ho1.
  assert (Hmo : "SuccessfulMaintenanceEvent" <> "SuccessfulOnBoardingEvent")
    by discriminate.
  pose proof (completes_other _ _ _ _ Hmo Hcm) as Hm0.
  pose proof (completes_other _ _ _ _ (not_eq_sym Hmo) Hco) as Ho0.
  unfold labelled in *. rewrite Hm0, Ho0, Hm1, Ho1. simpl.
  split; [lia|]. split; [lia|].
  destruct (ledger w !! ("Maintenance " +:+ x)) as [tm|],
           (ledger w !! ("OnBoarding " +:+ x)) as [to|]; simpl in Hcm, Hco.
  - destruct Hcm as (? & ? & ? & -> & _), Hco as (? & ? & ? & -> & _). done.
  - destruct Hcm as (? & ? & ? & -> & _). by subst o.
  - destruct Hco as (? & ? & ? & -> & _). by subst m.
  - by subst m o.
Qed.
End MeterFacts.

Section MeterScenarios.
Import Py Meter Fixtures.

Lemma released_account_completions_witness :
  let w := meter_world onboarding_open in
  exists w1 m o,
    handle_account_event {| label := "ReleasedAccount"; account := "123456789012" |} w
    = (Ok "[OK] ReleasedAccount 123456789012", w1)
    /\ outbox w1 = outbox w ++ m ++ o
    /\ completes "SuccessfulMaintenanceEvent"
         (ledger w !! "Maintenance 123456789012") m
    /\ completes "SuccessfulOnBoardingEvent"
         (ledger w !! "OnBoarding 123456789012") o.
Proof.
  intros w. apply (released_account_completions "123456789012" w).
  - vm_compute. exact I.
  - vm_compute. eexists _, _. split; reflexivity.
Defined.

(** A creation at 1000.0 followed by a release at 1060.5: one event, of
    duration 60.5. *)
Example created_then_released :
  let w := meter_world [] in
  let w1 := (handle_account_event
               {| label := "CreatedAccount"; account := "123456789012" |} w).2 in
  let w2 := (handle_account_event
               {| label := "ReleasedAccount"; account := "123456789012" |} w1).2 in
  outbox w2
  = [("SuccessfulOnBoardingEvent",
      [("begin", PyFloat 1000.0%float); ("identifier", PyStr "uuid-0");
       ("end", PyFloat 1060.5%float); ("duration", PyFloat 60.5%float)])]
  /\ ledger w2 !! "OnBoarding 123456789012" = None.
Proof. vm_compute. done. Qed.

(** The record is deleted before anything that can fail, and before the
    event is emitted: a record without begin is gone after the first
    delivery, which raises, and nothing was emitted. *)
Example released_deletes_first :
  let w := meter_world [("Maintenance 123456789012", [("identifier", PyStr "some-uuid")])] in
  let run := handle_account_event
               {| label := "ReleasedAccount"; account := "123456789012" |} w in
  run.1 = Raise (KeyError "begin")
  /\ ledger run.2 !! "Maintenance 123456789012" = None
  /\ outbox run.2 = [].
Proof. vm_compute. done. Qed.

Lemma released_account_redelivery_witness :
  let w := meter_world onboarding_open in
  let input := {| label := "ReleasedAccount"; account := "123456789012" |} in
  exists w1 w2 evs,
    handle_account_event input w = (Ok "[OK] ReleasedAccount 123456789012", w1)
    /\ handle_account_event input w1 = (Ok "[OK] ReleasedAccount 123456789012", w2)
    /\ w2 = w1
    /\ outbox w2 = evs
    /\ length (labelled "SuccessfulMaintenanceEvent" evs) = 0
    /\ length (labelled "SuccessfulOnBoardingEvent" evs) = 1
    /\ length evs = 1.
Proof.
  intros w input.
  destruct (released_account_redelivery "123456789012" w)
    as (w1 & w2 & evs & H1 & _ & _ & H2 & Hsame & Hout & Hm & Ho & Hall).
  - vm_compute. exact I.
  - vm_compute. eexists _, _. split; reflexivity.
  - exists w1, w2, evs. repeat split; try done.
    rewrite Hall, Hm, Ho. reflexivity.
Defined.

(** Starting a transaction with an account event. *)
Lemma handle_created_event_run input w :
  handle_created_event input w = (Ok tt, started ("OnBoarding " +:+ account input) w).
Proof. reflexivity. Qed.

Lemma handle_expired_event_run input w :
  handle_expired_event input w = (Ok tt, started ("Maintenance " +:+ account input) w).
Proof. reflexivity. Qed.

Lemma handle_account_event_created x w :
  handle_account_event {| label := "CreatedAccount"; account := x |} w
  = (Ok ("[OK] CreatedAccount " +:+ x), started ("OnBoarding " +:+ x) w).
Proof. reflexivity. Qed.

Lemma handle_account_event_expired x w :
  handle_account_event {| label := "ExpiredAccount"; account := x |} w
  = (Ok ("[OK] ExpiredAccount " +:+ x), started ("Maintenance " +:+ x) w).
Proof. reflexivity. Qed.

(** Two starts in a row for one key: the second record replaces the
    first. *)
Lemma started_twice key w :
  ledger (started key (started key w)) = <[key := fresh_transaction w 1]> (ledger w)
  /\ outbox (started key (started key w)) = outbox w.
Proof.
  split; [|done]. unfold started at 1. cbn [ledger].
  change (fresh_transaction (started key w) 0) with (fresh_transaction w 1).
  unfold started. cbn [ledger]. apply insert_insert_eq.
Qed.

Lemma started_differ key w :
  clock w (S (ticks w)) <> clock w (ticks w) ->
  ledger (started key (started key w)) <> ledger (started key w).
Proof.
  intros Hclock Heq. destruct (started_twice key w) as [Htwice _].
  rewrite Htwice in Heq. unfold started in Heq. cbn [ledger] in Heq.
  assert (Hlook : Some (fresh_transaction w 1) = Some (fresh_transaction w 0)).
  { rewrite <- (lookup_insert_eq (ledger w) key (fresh_transaction w 1)).
    rewrite Heq. apply lookup_insert_eq. }
  apply Hclock. by inversion Hlook.
Qed.

(** C7: a CreatedAccount event for an account writes, under the key made
    of OnBoarding and the account, the transaction of the current time and
    of a fresh identifier, whatever the ledger held there; an
    ExpiredAccount event does the same under the key made of Maintenance
    and the account.  Nothing is emitted.  A second delivery of the same
    event writes the record of the second reading of the clock over the
    first one: when the clock has moved, the ledger after two deliveries
    is not the ledger after one. *)
Theorem starting_event_overwrites x w :
  forall starting kind,
    (starting, kind) ∈ [("CreatedAccount", "OnBoarding "); ("ExpiredAccount", "Maintenance ")] ->
    let input := {| label := starting; account := x |} in
    exists w1 w2,
      handle_account_event input w = (Ok ("[OK] " +:+ starting +:+ " " +:+ x), w1)
      /\ ledger w1 = <[kind +:+ x := fresh_transaction w 0]> (ledger w)
      /\ ledger w1 !! (kind +:+ x)
         = Some [("begin", PyFloat (clock w (ticks w)));
                 ("identifier", PyStr (uuids w (draws w)))]
      /\ handle_account_event input w1 = (Ok ("[OK] " +:+ starting +:+ " " +:+ x), w2)
      /\ ledger w2 = <[kind +:+ x := fresh_transaction w 1]> (ledger w)
      /\ ledger w2 !! (kind +:+ x)
         = Some [("begin", PyFloat (clock w (S (ticks w))));
                 ("identifier", PyStr (uuids w (S (draws w))))]
      /\ outbox w2 = outbox w
      /\ (clock w (S (ticks w)) <> clock w (ticks w) -> ledger w2 <> ledger w1).
Proof.
  intros starting kind Hin input. subst input.
  assert (Hcase : handle_account_event {| label := starting; account := x |}
                  = fun w => (Ok ("[OK] " +:+ starting +:+ " " +:+ x), started (kind +:+ x) w)).
  { rewrite !elem_of_cons, elem_of_nil in Hin.
    destruct Hin as [[= -> ->]|[[= -> ->]|[]]]; reflexivity. }
  exists (started (kind +:+ x) w), (started (kind +:+ x) (started (kind +:+ x) w)).
  rewrite Hcase. destruct (started_twice (kind +:+ x) w) as [Htwice Hout].
  split; [done|]. split; [done|].
  split; [apply lookup_insert_eq|]. split; [done|]. split; [done|].
  split; [rewrite Htwice; apply lookup_insert_eq|]. split; [done|].
  apply started_differ.
Qed.

Lemma starting_event_overwrites_witness :
  let w := meter_world onboarding_open in
  let input := {| label := "CreatedAccount"; account := "123456789012" |} in
  exists w1 w2,
    handle_account_event input w = (Ok "[OK] CreatedAccount 123456789012", w1)
    /\ ledger w1 !! "OnBoarding 123456789012"
       = Some [("begin", PyFloat 1000.0%float); ("identifier", PyStr "uuid-0")]
    /\ handle_account_event input w1 = (Ok "[OK] CreatedAccount 123456789012", w2)
    /\ ledger w2 !! "OnBoarding 123456789012"
       = Some [("begin", PyFloat 1060.5%float); ("identifier", PyStr "uuid-1")]
    /\ ledger w2 <> ledger w1.
Proof.
  intros w input.
  destruct (starting_event_overwrites "123456789012" w "CreatedAccount" "OnBoarding ")
    as (w1 & w2 & H1 & _ & Hl1 & H2 & _ & Hl2 & _ & Hne).
  - apply list_elem_of_here.
  - exists w1, w2. repeat split; try done.
    apply Hne. vm_compute. discriminate.
Defined.
End MeterScenarios.

(** ** The reporting aggregator *)

Section ReportsFacts.
Import Py Reports Fixtures.

Lemma writerow_header {St} (known : reporter) account center stamp transaction
    identifier duration (w : St) :
  fieldnames known = header ->
  writerow known
    [("Account", account); ("Cost Center", center); ("Stamp", stamp);
     ("Transaction", transaction); ("Identifier", identifier);
     ("Duration", duration)] w
  = (Ok {| buffer := buffer known
                     ++ [[center; transaction; stamp; account; identifier; duration]];
           fieldnames := fieldnames known |}, w).
Proof.
  intros Hnames. unfold writerow. rewrite Hnames.
  rewrite bool_decide_eq_true_2; [reflexivity|].
  unfold dict_keys, header. cbn [fmap list_fmap fst].
  repeat constructor; rewrite !elem_of_cons; auto 10.
Qed.

Lemma complete_field k r :
  complete r -> k ∈ fields -> dict_get k (value r) = Some (field k r).
Proof.
  intros Hall Hin. unfold complete in Hall. rewrite Forall_forall in Hall.
  destruct (Hall k Hin) as [v Hv]. unfold field. by rewrite Hv.
Qed.

Lemma headed_add_record reports r : headed reports -> headed (add_record reports r).
Proof.
  intros Hall label known. unfold add_record.
  destruct (decide (cost_center r = label)) as [<-|Hne].
  - rewrite dict_get_set_eq. intros [= <-]. cbn [fieldnames].
    destruct (dict_get (cost_center r) reports) as [old|] eqn:Hold; [|done].
    by apply (Hall _ _ Hold).
  - rewrite dict_get_set_ne by done. apply Hall.
Qed.

(** On complete records the loop never raises: it adds one record after
    the other. *)
Lemma build_reports_from_run {St} records : forall reports (w : St),
  Forall complete records -> headed reports ->
  build_reports_from reports records w = (Ok (foldl add_record reports records), w).
Proof.
  induction records as [|r records IH]; intros reports w Hall Hhead; [done|].
  apply Forall_cons in Hall as [Hr Hall].
  assert (Hget : forall k, k ∈ fields -> dict_get k (value r) = Some (field k r))
    by (intros; by apply complete_field).
  cbn [build_reports_from foldl]. unfold dict_getitem.
  rewrite !Hget by (unfold fields; rewrite !elem_of_cons; auto 10).
  unfold bind at 1. unfold ret at 1. unfold bind at 1. unfold ret at 1.
  unfold bind at 1. unfold ret at 1. unfold bind at 1. unfold ret at 1.
  unfold bind at 1. unfold ret at 1. unfold bind at 1. unfold ret at 1.
  unfold bind at 1. unfold ret at 1.
  assert (Hknown : fieldnames (default get_reporter
                                 (dict_get (field "cost-center" r) reports)) = header).
  { destruct (dict_get (field "cost-center" r) reports) as [old|] eqn:Hold; [|done].
    by apply (Hhead _ _ Hold). }
  rewrite (bind_ok _ _ _ _ _ (writerow_header _ _ _ _ _ _ _ w Hknown)).
  apply IH; [done|]. by apply (headed_add_record reports r).
Qed.

Lemma first_seen_from_elem (l seen : list string) k :
  k ∈ foldl (fun seen k => if decide (k ∈ seen) then seen else seen ++ [k]) seen l
  <-> k ∈ seen \/ k ∈ l.
Proof.
  revert seen. induction l as [|x l IH]; intros seen; cbn [foldl].
  - rewrite elem_of_nil. tauto.
  - rewrite IH, elem_of_cons. destruct (decide (x ∈ seen)) as [Hin|Hout].
    + split; [tauto|]. intros [?|[->|?]]; auto.
    + rewrite elem_of_app, elem_of_cons, elem_of_nil. tauto.
Qed.

Lemma first_seen_from_NoDup (l seen : list string) :
  NoDup seen ->
  NoDup (foldl (fun seen k => if decide (k ∈ seen) then seen else seen ++ [k]) seen l).
Proof.
  revert seen. induction l as [|x l IH]; intros seen Hseen; cbn [foldl]; [done|].
  apply IH. destruct (decide (x ∈ seen)) as [Hin|Hout]; [done|].
  apply NoDup_app. split; [done|]. split.
  - intros y Hy. rewrite elem_of_cons, elem_of_nil. intros [->|[]]. done.
  - apply NoDup_singleton.
Qed.

Lemma first_seen_elem l k : k ∈ first_seen l <-> k ∈ l.
Proof.
  unfold first_seen. rewrite first_seen_from_elem, elem_of_nil. tauto.
Qed.

Lemma first_seen_NoDup l : NoDup (first_seen l).
Proof. apply first_seen_from_NoDup, NoDup_nil_2. Qed.

(** The number of distinct members. *)
Lemma first_seen_length l :
  length (first_seen l) = size (list_to_set l : gset string).
Proof.
  rewrite <- (size_list_to_set (C := gset string) (first_seen l))
    by apply first_seen_NoDup.
  f_equal. apply set_eq. intros k.
  by rewrite !elem_of_list_to_set, first_seen_elem.
Qed.

Lemma add_records_keys records reports :
  dict_keys (foldl add_record reports records)
  = foldl (fun seen k => if decide (k ∈ seen) then seen else seen ++ [k])
          (dict_keys reports) (cost_center <$> records).
Proof.
  revert reports. induction records as [|r records IH]; intros reports; [done|].
  cbn [foldl fmap list_fmap]. rewrite IH. unfold add_record at 1.
  by rewrite dict_keys_set.
Qed.

Lemma add_records_get records label :
  dict_get label (foldl add_record [] records)
  = match filter (fun r => cost_center r = label) records with
    | [] => None
    | rs => Some (report_of rs)
    end.
Proof.
  induction records as [|r records IH] using rev_ind; [done|].
  rewrite foldl_snoc, filter_app. unfold add_record at 1.
  destruct (decide (cost_center r = label)) as [<-|Hne].
  - rewrite filter_cons_True, filter_nil by done.
    rewrite dict_get_set_eq, IH.
    destruct (filter _ records) as [|r0 rs]; [done|].
    change ((r0 :: rs) ++ [r]) with (r0 :: (rs ++ [r])). cbv iota.
    unfold report_of. cbn [default buffer fieldnames].
    rewrite !fmap_cons, fmap_app. reflexivity.
  - rewrite filter_cons_False, filter_nil, app_nil_r by done.
    by rewrite dict_get_set_ne.
Qed.

(** C8: over any finite sequence of records whose payloads carry the
    fields of a report row, [build_reports] returns one reporter per
    distinct cost center, under the cost centers in the order in which
    they are first met; the buffer of a cost center is the header row,
    which names the columns Cost Center, Transaction, Stamp, Account,
    Identifier and Duration in this order, followed by one row per record
    of that cost center, in the order of the records, and by no other
    row; so there are as many reporters as distinct cost centers. *)
Theorem build_reports_by_cost_center {St} (records : list record) (w : St) :
  Forall complete records ->
  exists reports,
    build_reports records w = (Ok reports, w)
    /\ dict_keys reports = first_seen (cost_center <$> records)
    /\ NoDup (dict_keys reports)
    /\ length reports = size (list_to_set (cost_center <$> records) : gset string)
    /\ (forall label, label ∈ cost_center <$> records ->
          exists known,
            dict_get label reports = Some known
            /\ buffer known
               = ["Cost Center"; "Transaction"; "Stamp"; "Account";
                  "Identifier"; "Duration"]
                 :: (row_of <$> filter (fun r => cost_center r = label) records))
    /\ (forall label, label ∉ cost_center <$> records ->
          dict_get label reports = None).
Proof.
  intros Hall. exists (foldl add_record [] records).
  assert (Hkeys : dict_keys (foldl add_record [] records)
                  = first_seen (cost_center <$> records))
    by apply add_records_keys.
  split; [by apply build_reports_from_run|].
  split; [done|]. split; [rewrite Hkeys; apply first_seen_NoDup|].
  split.
  { rewrite <- first_seen_length, <- Hkeys. unfold dict_keys.
    by rewrite length_fmap. }
  split.
  - intros label Hin. rewrite add_records_get.
    apply list_elem_of_fmap in Hin as (r & -> & Hr).
    assert (Hfound : r ∈ filter (fun r0 => cost_center r0 = cost_center r) records)
      by (by apply list_elem_of_filter).
    destruct (filter _ records) as [|r0 rs] eqn:Hf.
    + by apply elem_of_nil in Hfound.
    + by eexists.
  - intros label Hout. rewrite add_records_get.
    destruct (filter _ records) as [|r0 rs] eqn:Hf; [done|].
    exfalso. apply Hout.
    assert (Hin : r0 ∈ filter (fun r => cost_center r = label) records)
      by (rewrite Hf; apply list_elem_of_here).
    apply list_elem_of_filter in Hin as [<- Hin].
    by apply list_elem_of_fmap_2.
Qed.

(** A payload without cost center makes the whole run fail with the
    [KeyError] of the first lookup. *)
Example build_reports_incomplete :
  build_reports
    [{| hash := "2023-03-01"; range := "07:10:00.000000";
        value := [("begin", "1000.0"); ("identifier", "uuid-0"); ("end", "1060.5");
                  ("duration", "60.5"); ("stamp", "2023-03-01T07:10:00.000000")] |}]
    tt
  = (Raise (KeyError "cost-center"), tt).
Proof. reflexivity. Qed.

Lemma build_reports_by_cost_center_witness :
  exists reports,
    build_reports five_days tt = (Ok reports, tt)
    /\ dict_keys reports = ["Tools"; "Data"; "Labs"]
    /\ length reports = 3
    /\ (buffer <$> dict_get "Data" reports)
       = Some [header;
               ["Data"; "maintenance"; "2023-03-02T08:20:00.000000";
                "222222222222"; "id-2"; "7.25"];
               ["Data"; "on-boarding"; "2023-03-05T11:50:00.000000";
                "555555555555"; "id-5"; "1.5"]].
Proof.
  destruct (build_reports_by_cost_center five_days tt)
    as (reports & Hrun & Hkeys & _ & Hsize & Hrows & _).
  - repeat constructor; vm_compute; by eexists.
  - exists reports. split; [exact Hrun|]. split; [by rewrite Hkeys|].
    split.
    + unfold dict_keys in Hkeys. rewrite <- (length_fmap fst), Hkeys. reflexivity.
    + destruct (Hrows "Data") as (known & -> & Hbuffer).
      * vm_compute. apply list_elem_of_further, list_elem_of_here.
      * change (Some (buffer known) = Some
                  [header;
                   ["Data"; "maintenance"; "2023-03-02T08:20:00.000000";
                    "222222222222"; "id-2"; "7.25"];
                   ["Data"; "on-boarding"; "2023-03-05T11:50:00.000000";
                    "555555555555"; "id-5"; "1.5"]]).
        rewrite Hbuffer. reflexivity.
Defined.
End ReportsFacts.

(** * Further properties of the code *)

(** ** Account.list and the pagination loop *)

Section PaginationFacts.
Import Py Account Fixtures Scenarios.

(** X1: when the listing of the accounts of a parent comes to an end after
    the pages [cs], [Account.list] yields the identifiers of the accounts of
    all pages, page after page, in the order of the provider. *)
Theorem list_yields_all_pages fuel parent session w s cs :
  session_or session w = (Ok s, w) ->
  pages (list_accounts_for_parent s parent) None cs ->
  length cs <= fuel ->
  list_ fuel parent session w = (Ok (Id <$> concat (items <$> cs)), w).
Proof.
  intros Hs Hpages Hfuel. unfold list_. rewrite (bind_ok _ _ _ _ _ Hs).
  by rewrite (paginate_pages _ _ _ Hpages fuel Hfuel).
Qed.

Lemma list_yields_all_pages_witness :
  list_ 2 "ou-parent" (Some two_pages_of_accounts) (world live [] valid_tags)
  = (Ok ["123456789012"; "234567890123"; "345678901234"], world live [] valid_tags).
Proof.
  apply (list_yields_all_pages 2 "ou-parent" (Some two_pages_of_accounts) _
           two_pages_of_accounts
           [list_accounts_for_parent two_pages_of_accounts "ou-parent" None;
            list_accounts_for_parent two_pages_of_accounts "ou-parent" (Some "token")]).
  - reflexivity.
  - apply (pages_more _ None); [reflexivity|].
    apply (pages_last _ (Some "token")). reflexivity.
  - simpl. lia.
Defined.

Lemma paginate_endless {A} (fetch : option string -> chunk A) :
  (forall token, truthy_str (NextToken (fetch token)) = true) ->
  forall fuel token, paginate fuel fetch token = None.
Proof.
  intros Hmore. induction fuel as [|fuel IH]; intros token; [done|].
  cbn [paginate]. by rewrite Hmore, IH.
Qed.

(** X2: the loop of [iterate_tags] has no bound of its own: against a
    provider that hands out a token with every page of tags, [list_tags]
    does not return within any number of pages, and changes nothing. *)
Theorem list_tags_endless account session w s :
  session_or session w = (Ok s, w) ->
  (forall token, truthy_str (NextToken (list_tags_for_resource s account token)) = true) ->
  forall fuel, list_tags fuel account session w = (OutOfFuel, w).
Proof.
  intros Hs Hmore fuel. unfold list_tags, iterate_tags.
  unfold bind at 1. unfold bind at 1. rewrite Hs.
  by rewrite (paginate_endless _ Hmore).
Qed.

Lemma list_tags_endless_witness :
  list_tags 1000 "123456789012" (Some endless) (world live [] valid_tags)
  = (OutOfFuel, world live [] valid_tags).
Proof.
  apply (list_tags_endless "123456789012" (Some endless) _ endless).
  - reflexivity.
  - intros token. reflexivity.
Defined.
End PaginationFacts.

(** ** Account.move and the validation of states *)

Section MoveValidFacts.
Import Py Account Fixtures.

Lemma move_member_calls account member session w :
  (move account (PyState member) session w).1 = Ok tt
  /\ (tag_calls (move account (PyState member) session w).2
        = tag_calls w ++ [state_tag_call account member]
      \/ tag_calls (move account (PyState member) session w).2 = tag_calls w).
Proof.
  unfold move.
  rewrite (bind_ok _ _ _ _ _ (logging_run _ _ _)).
  rewrite (bind_ok _ _ _ _ _ (os_environ_get_run _ _)). cbn [environ logged].
  destruct (session_or_run session (logged w (tagging_record account member)))
    as [s Hs].
  case_bool_decide as Hdry.
  - rewrite (bind_ok _ _ _ _ _ Hs). split; [done|]. by left.
  - split; [done|]. by right.
Qed.

(** X3: whatever its argument, [move] makes at most one call to
    [tag_resource]; the call is for the given account and sets the one tag
    account:state to a text that [validate_state] accepts. *)
Theorem move_writes_valid_state account state session w :
  exists new,
    tag_calls (move account state session w).2 = tag_calls w ++ new
    /\ length new <= 1
    /\ Forall (fun call =>
          ResourceId call = account
          /\ exists text, Tags call = [{| Key := "account:state"; Value := text |}]
                          /\ validate_state text = true) new.
Proof.
  destruct state as [| | |member|];
    try (exists []; split; [by rewrite app_nil_r|]; split; [simpl; lia | constructor]).
  destruct (move_member_calls account member session w) as [_ [Hone|Hnone]].
  - exists [state_tag_call account member]. split; [done|]. split; [done|].
    constructor; [|constructor]. split; [done|].
    exists (value member). split; [done|]. by destruct member.
  - exists []. rewrite app_nil_r. split; [done|]. split; [simpl; lia | constructor].
Qed.
End MoveValidFacts.

(** ** The pattern of owner addresses *)

Section OwnerPatternFacts.
Import Re Words Account.

Lemma append_assoc u v w : (u +:+ v) +:+ w = u +:+ (v +:+ w).
Proof.
  induction u as [|c u IH]; [by rewrite !append_nil_l|].
  by rewrite !append_cons, IH.
Qed.

Lemma length_append u v : String.length (u +:+ v) = String.length u + String.length v.
Proof.
  induction u as [|c u IH]; [by rewrite append_nil_l|].
  rewrite append_cons. cbn [String.length]. by rewrite IH.
Qed.

Lemma word_append ranges u v : word ranges (u +:+ v) = word ranges u && word ranges v.
Proof.
  induction u as [|c u IH]; [by rewrite append_nil_l|].
  rewrite append_cons. cbn [word]. rewrite IH. by rewrite andb_assoc.
Qed.

Lemma word_subset (small large : list (ascii * ascii)) w :
  (forall c, in_chars c small = true -> in_chars c large = true) ->
  word small w = true -> word large w = true.
Proof.
  intros Hsub. induction w as [|c w IH]; [done|]. cbn [word].
  rewrite !andb_true_iff. intros [Hc Hw]. split; [by apply Hsub | by apply IH].
Qed.

Lemma in_chars_app c l1 l2 : in_chars c (l1 ++ l2) = in_chars c l1 || in_chars c l2.
Proof. unfold in_chars. apply existsb_app. Qed.

(** A word of an expression is made of the characters of the expression. *)
Lemma matches_alphabet r w : Matches r w -> word (alphabet r) w = true.
Proof.
  induction 1 as [|c rs Hc|r s u v _ IHu _ IHv|r s u _ IH|r s u _ IH|r|r u v _ IHu _ IHv];
    cbn [alphabet]; try done.
  - cbn [word]. by rewrite Hc.
  - rewrite word_append, andb_true_iff. split.
    + apply (word_subset (alphabet r)); [|done].
      intros c Hc. by rewrite in_chars_app, Hc.
    + apply (word_subset (alphabet s)); [|done].
      intros c Hc. rewrite in_chars_app, Hc. apply orb_true_r.
  - apply (word_subset (alphabet r)); [|done].
    intros c Hc. by rewrite in_chars_app, Hc.
  - apply (word_subset (alphabet s)); [|done].
    intros c Hc. rewrite in_chars_app, Hc. apply orb_true_r.
  - rewrite word_append, andb_true_iff. by split.
Qed.

Lemma matches_cat_inv r s w :
  Matches (Cat r s) w -> exists u v, w = u +:+ v /\ Matches r u /\ Matches s v.
Proof. inversion 1; subst. by eexists _, _. Qed.

Lemma matches_chars_length rs w : Matches (Chars rs) w -> String.length w = 1.
Proof. by inversion 1. Qed.

Lemma matches_plus_chars_length rs w : Matches (Plus (Chars rs)) w -> 1 <= String.length w.
Proof.
  intros H. apply matches_cat_inv in H as (u & v & -> & Hu & _).
  rewrite length_append, (matches_chars_length _ _ Hu). lia.
Qed.

Lemma length_nonempty w : 1 <= String.length w -> w <> "".
Proof. destruct w; simpl; [lia | done]. Qed.

(** X4: a text that [validate_owner] accepts has an at sign with something
    before it and at least four characters after it (a host, a dot, two
    letters), and is made of characters between the hyphen and the bar of
    the ASCII table: it holds no blank, no control character and no
    character outside of ASCII. *)
Theorem validate_owner_shape text :
  validate_owner text = true ->
  (exists u v, text = u +:+ "@" +:+ v /\ u <> "" /\ 4 <= String.length v)
  /\ word [("-", "|")]%char text = true.
Proof.
  intros Hok. apply fullmatch_spec in Hok. split.
  - apply matches_cat_inv in Hok as (a & rest & -> & _ & Hrest).
    apply matches_cat_inv in Hrest as (b & rest' & -> & Hb & Hrest).
    apply matches_cat_inv in Hrest as (at_ & rest'' & -> & Hat & Hrest).
    apply matches_cat_inv in Hrest as (h & t & -> & Hh & Ht).
    inversion Hat as [|c rs Hc| | | | |]; subst.
    assert (c = "@"%char) as ->.
    { unfold in_chars, in_range in Hc. cbn [existsb fst snd] in Hc.
      rewrite orb_false_r, andb_true_iff, !Nat.leb_le in Hc.
      assert (Hcode : nat_of_ascii c = 64)
        by (change (nat_of_ascii "@") with 64 in Hc; lia).
      by rewrite <- (ascii_nat_embedding c), Hcode. }
    exists (a +:+ b), (h +:+ t). split; [by rewrite !append_assoc|].
    apply matches_plus_chars_length in Hb, Hh.
    split.
    { apply length_nonempty. rewrite length_append. lia. }
    apply matches_cat_inv in Ht as (t1 & t2 & -> & Ht1 & _).
    apply matches_cat_inv in Ht1 as (dot & two & -> & Hdot & Htwo).
    apply matches_chars_length in Hdot.
    apply matches_cat_inv in Htwo as (x & two' & -> & Hx & Htwo).
    apply matches_cat_inv in Htwo as (y & z & -> & Hy & _).
    apply matches_chars_length in Hx, Hy.
    rewrite !length_append. lia.
  - apply matches_alphabet in Hok.
    apply (word_subset (alphabet VALID_EMAIL)); [|done].
    intros [[] [] [] [] [] [] [] []]; vm_compute; congruence.
Qed.

Lemma validate_owner_shape_witness :
  (exists u v, "a@b.com" = u +:+ "@" +:+ v /\ u <> "" /\ 4 <= String.length v)
  /\ word [("-", "|")]%char "a@b.com" = true.
Proof. apply (validate_owner_shape "a@b.com"). reflexivity. Defined.

Lemma word_star ranges w : word ranges w = true -> Matches (Star (Chars ranges)) w.
Proof.
  induction w as [|c w IH]; [constructor|]. cbn [word].
  rewrite andb_true_iff. intros [Hc Hw].
  apply (MStarCons _ (String c "") w); [by constructor | by apply IH].
Qed.

Lemma word_plus ranges w :
  w <> "" -> word ranges w = true -> Matches (Plus (Chars ranges)) w.
Proof.
  destruct w as [|c w]; [done|]. intros _. cbn [word].
  rewrite andb_true_iff. intros [Hc Hw].
  apply (MCat _ _ (String c "") w); [by constructor | by apply word_star].
Qed.

Lemma word_at_least_2 ranges w :
  2 <= String.length w -> word ranges w = true -> Matches (AtLeast2 (Chars ranges)) w.
Proof.
  destruct w as [|c [|d w]]; cbn [String.length]; try lia. intros _. cbn [word].
  rewrite !andb_true_iff. intros (Hc & Hd & Hw).
  apply (MCat _ _ (String c "") (String d w)); [by constructor|].
  apply (MCat _ _ (String d "") w); [by constructor | by apply word_star].
Qed.

Lemma segments_star parts :
  Forall (fun p => p.1 <> "" /\ word alnum_set p.1 = true
                   /\ in_chars p.2 separator_set = true) parts ->
  Matches (Star (Cat (Plus (Chars alnum_set)) (Chars separator_set))) (segments parts).
Proof.
  induction 1 as [|[u c] parts (Hne & Hword & Hsep) _ IH]; [constructor|].
  cbn [segments foldr fst snd].
  change (String c (foldr (fun p rest => p.1 +:+ String p.2 rest) "" parts))
    with (String c "" +:+ segments parts).
  rewrite <- append_assoc. apply MStarCons; [|done].
  apply MCat; [by apply word_plus | by constructor].
Qed.

Lemma dotted_plus labels :
  labels <> [] ->
  Forall (fun t => 2 <= String.length t /\ word tld_set t = true) labels ->
  Matches (Plus (Cat (Chars [(".", ".")]%char) (AtLeast2 (Chars tld_set)))) (dotted labels).
Proof.
  assert (Hone : forall t, 2 <= String.length t -> word tld_set t = true ->
            Matches (Cat (Chars [(".", ".")]%char) (AtLeast2 (Chars tld_set))) ("." +:+ t)).
  { intros t Hlen Hword. apply (MCat _ _ "." t); [by constructor | by apply word_at_least_2]. }
  assert (Hstar : forall l,
            Forall (fun t => 2 <= String.length t /\ word tld_set t = true) l ->
            Matches (Star (Cat (Chars [(".", ".")]%char) (AtLeast2 (Chars tld_set))))
                    (dotted l)).
  { induction 1 as [|t l [Hlen Hword] _ IH]; [constructor|].
    cbn [dotted foldr]. rewrite <- append_assoc. apply MStarCons; [by apply Hone | done]. }
  destruct labels as [|t labels]; [done|]. intros _ Hall.
  apply Forall_cons in Hall as [[Hlen Hword] Hall].
  cbn [dotted foldr]. rewrite <- append_assoc.
  apply MCat; [by apply Hone | by apply Hstar].
Qed.

(** X5: [validate_owner] accepts every text made of: any number of segments
    of letters and digits, each followed by one character between the dot
    and the underscore of the ASCII table (which takes in the slash, the
    colon, the equals sign and the at sign); then letters and digits, an at
    sign, a host of letters, digits and hyphens, and one or more labels of
    at least two letters or bars, each after a dot. *)
Theorem validate_owner_accepts parts local host labels :
  Forall (fun p => p.1 <> "" /\ word alnum_set p.1 = true
                   /\ in_chars p.2 separator_set = true) parts ->
  local <> "" -> word alnum_set local = true ->
  host <> "" -> word host_set host = true ->
  labels <> [] ->
  Forall (fun t => 2 <= String.length t /\ word tld_set t = true) labels ->
  validate_owner (segments parts +:+ local +:+ "@" +:+ host +:+ dotted labels) = true.
Proof.
  intros Hparts Hlocal Hlword Hhost Hhword Hlabels Hlwords.
  apply fullmatch_spec. unfold VALID_EMAIL.
  apply MCat; [by apply segments_star|].
  apply MCat; [by apply word_plus|].
  apply MCat; [by constructor|].
  apply MCat; [by apply word_plus | by apply dotted_plus].
Qed.

Lemma validate_owner_accepts_witness :
  validate_owner "john=snow/a@b@night-watch.example.co" = true.
Proof.
  apply (validate_owner_accepts
           [("john", "="%char); ("snow", "/"%char); ("a", "@"%char)]
           "b" "night-watch" ["example"; "co"]);
    repeat constructor; done.
Defined.
End OwnerPatternFacts.

(** ** The scan of the maintenance scanner *)

Section ScanFailureFacts.
Import Py Account Scanner Fixtures Scenarios.



End ScanFailureFacts.

(** ** The metering engine, beyond the specification *)

Section MeterMoreFacts.
Import Py Meter Fixtures.

(** X7: an event whose label is none of CreatedAccount, ExpiredAccount and
    ReleasedAccount is not handled: the handler answers as for any event
    and leaves the ledger, the clock and the event bus as they were. *)
Theorem handle_account_event_ignores_other_labels input w :
  label input <> "CreatedAccount" ->
  label input <> "ExpiredAccount" ->
  label input <> "ReleasedAccount" ->
  handle_account_event input w
  = (Ok ("[OK] " +:+ label input +:+ " " +:+ account input), w).
Proof.
  intros Hc He Hr. unfold handle_account_event.
  by rewrite !bool_decide_eq_false_2 by done.
Qed.

Lemma handle_account_event_ignores_other_labels_witness :
  handle_account_event {| label := "PurgedAccount"; account := "123456789012" |}
    (meter_world onboarding_open)
  = (Ok "[OK] PurgedAccount 123456789012", meter_world onboarding_open).
Proof.
  apply (handle_account_event_ignores_other_labels
           {| label := "PurgedAccount"; account := "123456789012" |});
    discriminate.
Defined.

Lemma append_inj_r prefix x y : prefix +:+ x = prefix +:+ y -> x = y.
Proof.
  induction prefix as [|c prefix IH]; [by rewrite !append_nil_l|].
  rewrite !append_cons. intros [= H]. by apply IH.
Qed.

(** Closing touches the ledger under its own key only, however it ends. *)
Lemma close_transaction_frame prefix event input w key :
  key <> prefix +:+ account input ->
  ledger (close_transaction prefix event input w).2 !! key = ledger w !! key.
Proof.
  intros Hkey. unfold close_transaction, bind, datastore_retrieve, gets,
    datastore_assign, modify, time, dict_getitem, ret, raise, py_sub, emit_spa_event.
  cbv beta iota zeta.
  destruct (ledger w !! (prefix +:+ account input)) as [t|]; [|done].
  destruct (dict_truthy t); [|done].
  rewrite dict_get_set_eq. rewrite dict_get_set_ne by discriminate.
  destruct (dict_get "begin" t) as [[| |b| |]|]; cbn [snd ledger with_ledger];
    by apply lookup_delete_ne.
Qed.

Lemma started_frame key' w key :
  key <> key' -> ledger (started key' w) !! key = ledger w !! key.
Proof. intros Hkey. unfold started. cbn [ledger]. by rewrite lookup_insert_ne. Qed.

(** X8: the transactions of an account are out of reach of the events of
    another one: whatever the event for an account, and however its handling
    ends, what the ledger holds for both kinds of any other account stays
    as it was. *)
Theorem handle_account_event_keeps_other_accounts input w other :
  other <> account input ->
  ledger (handle_account_event input w).2 !! ("OnBoarding " +:+ other)
    = ledger w !! ("OnBoarding " +:+ other)
  /\ ledger (handle_account_event input w).2 !! ("Maintenance " +:+ other)
    = ledger w !! ("Maintenance " +:+ other).
Proof.
  intros Hother.
  assert (Hoo : "OnBoarding " +:+ other <> "OnBoarding " +:+ account input)
    by (intros H; by apply append_inj_r in H).
  assert (Hmm : "Maintenance " +:+ other <> "Maintenance " +:+ account input)
    by (intros H; by apply append_inj_r in H).
  assert (Hom : "OnBoarding " +:+ other <> "Maintenance " +:+ account input)
    by discriminate.
  assert (Hmo : "Maintenance " +:+ other <> "OnBoarding " +:+ account input)
    by discriminate.
  assert (Hframe : forall key,
            key <> "OnBoarding " +:+ account input ->
            key <> "Maintenance " +:+ account input ->
            ledger (handle_account_event input w).2 !! key = ledger w !! key).
  { intros key Ho Hm. unfold handle_account_event.
    repeat case_bool_decide.
    - unfold bind. rewrite handle_created_event_run. by apply started_frame.
    - unfold bind. rewrite handle_expired_event_run. by apply started_frame.
    - unfold handle_released_event.
      rewrite update_maintenance_is_close, update_onboarding_is_close.
      pose proof (close_transaction_frame "Maintenance " "SuccessfulMaintenanceEvent"
                    input w key Hm) as Hk1.
      unfold bind at 1. unfold bind at 1.
      destruct (close_transaction "Maintenance " "SuccessfulMaintenanceEvent" input w)
        as [[[]|e|] w1]; simpl in Hk1 |- *; try done.
      pose proof (close_transaction_frame "OnBoarding " "SuccessfulOnBoardingEvent"
                    input w1 key Ho) as Hk2.
      destruct (close_transaction "OnBoarding " "SuccessfulOnBoardingEvent" input w1)
        as [[[]|e'|] w2]; simpl in Hk2 |- *; by rewrite Hk2.
    - done. }
  split; by apply Hframe.
Qed.

Lemma handle_account_event_keeps_other_accounts_witness :
  ledger (handle_account_event
            {| label := "ReleasedAccount"; account := "210987654321" |}
            (meter_world onboarding_open)).2 !! "OnBoarding 123456789012"
  = Some [("begin", PyFloat 900.0%float); ("identifier", PyStr "some-uuid")].
Proof.
  destruct (handle_account_event_keeps_other_accounts
              {| label := "ReleasedAccount"; account := "210987654321" |}
              (meter_world onboarding_open) "123456789012") as [Hkeep _].
  - discriminate.
  - etransitivity; [exact Hkeep | reflexivity].
Defined.
(** The payload of a transaction begun at the first reading of the clock
    and closed at the second one. *)
Lemma closed_fresh w :
  closed (fresh_transaction w 0) (clock w (ticks w)) (clock w (S (ticks w)))
  = [("begin", PyFloat (clock w (ticks w)));
     ("identifier", PyStr (uuids w (draws w)));
     ("end", PyFloat (clock w (S (ticks w))));
     ("duration", PyFloat (PrimFloat.sub (clock w (S (ticks w))) (clock w (ticks w))))].
Proof. reflexivity. Qed.

Lemma released_after_started_onboarding x w :
  ledger w !! ("Maintenance " +:+ x) = None ->
  handle_released_event {| label := "ReleasedAccount"; account := x |}
    (started ("OnBoarding " +:+ x) w)
  = (Ok tt, closed_world ("OnBoarding " +:+ x) "SuccessfulOnBoardingEvent"
              (fresh_transaction w 0) (clock w (ticks w))
              (started ("OnBoarding " +:+ x) w)).
Proof.
  intros Hnone. unfold handle_released_event.
  rewrite update_maintenance_is_close, update_onboarding_is_close.
  rewrite (bind_ok _ _ (started ("OnBoarding " +:+ x) w) tt
             (started ("OnBoarding " +:+ x) w)).
  - apply close_present; [apply lookup_insert_eq | reflexivity].
  - apply close_absent. cbn [account]. rewrite started_frame; [done|].
    apply kinds_apart.
Qed.

Lemma released_after_started_maintenance x w :
  ledger w !! ("OnBoarding " +:+ x) = None ->
  handle_released_event {| label := "ReleasedAccount"; account := x |}
    (started ("Maintenance " +:+ x) w)
  = (Ok tt, closed_world ("Maintenance " +:+ x) "SuccessfulMaintenanceEvent"
              (fresh_transaction w 0) (clock w (ticks w))
              (started ("Maintenance " +:+ x) w)).
Proof.
  intros Hnone. unfold handle_released_event.
  rewrite update_maintenance_is_close, update_onboarding_is_close.
  rewrite (bind_ok _ _ (started ("Maintenance " +:+ x) w) tt
             (closed_world ("Maintenance " +:+ x) "SuccessfulMaintenanceEvent"
                (fresh_transaction w 0) (clock w (ticks w))
                (started ("Maintenance " +:+ x) w))).
  - apply close_absent. cbn [account closed_world ledger].
    rewrite lookup_delete_ne by apply kinds_apart.
    rewrite started_frame; [done|]. apply not_eq_sym, kinds_apart.
  - apply close_present; [apply lookup_insert_eq | reflexivity].
Qed.

(** X9: a start followed by the release of the same account, with no
    transaction of the other kind open for it: the release emits exactly
    one event, of the kind that was started, whose payload holds, in this
    order, the begin and the identifier of the start, the end read at the
    release and their difference as duration; and the ledger is what it
    was before the start, without the key of the transaction. *)
Theorem start_then_release x w :
  forall starting kind other event,
    (starting, kind, other, event)
      ∈ [("CreatedAccount", "OnBoarding ", "Maintenance ", "SuccessfulOnBoardingEvent");
         ("ExpiredAccount", "Maintenance ", "OnBoarding ", "SuccessfulMaintenanceEvent")] ->
    ledger w !! (other +:+ x) = None ->
    exists w1 w2,
      handle_account_event {| label := starting; account := x |} w
        = (Ok ("[OK] " +:+ starting +:+ " " +:+ x), w1)
      /\ handle_account_event {| label := "ReleasedAccount"; account := x |} w1
        = (Ok ("[OK] ReleasedAccount " +:+ x), w2)
      /\ outbox w2
        = outbox w
          ++ [(event,
               [("begin", PyFloat (clock w (ticks w)));
                ("identifier", PyStr (uuids w (draws w)));
                ("end", PyFloat (clock w (S (ticks w))));
                ("duration",
                 PyFloat (PrimFloat.sub (clock w (S (ticks w))) (clock w (ticks w))))])]
      /\ ledger w2 = delete (kind +:+ x) (ledger w).
Proof.
  intros starting kind other event Hin Hnone.
  rewrite !elem_of_cons, elem_of_nil in Hin.
  destruct Hin as [[= -> -> -> ->]|[[= -> -> -> ->]|[]]].
  - exists (started ("OnBoarding " +:+ x) w),
           (closed_world ("OnBoarding " +:+ x) "SuccessfulOnBoardingEvent"
              (fresh_transaction w 0) (clock w (ticks w))
              (started ("OnBoarding " +:+ x) w)).
    split; [apply handle_account_event_created|].
    split.
    { by rewrite (handle_account_event_released _ _ _ _
                    (released_after_started_onboarding x w Hnone)). }
    split; [reflexivity|].
    cbn [closed_world started ledger]. apply delete_insert_eq.
  - exists (started ("Maintenance " +:+ x) w),
           (closed_world ("Maintenance " +:+ x) "SuccessfulMaintenanceEvent"
              (fresh_transaction w 0) (clock w (ticks w))
              (started ("Maintenance " +:+ x) w)).
    split; [apply handle_account_event_expired|].
    split.
    { by rewrite (handle_account_event_released _ _ _ _
                    (released_after_started_maintenance x w Hnone)). }
    split; [reflexivity|].
    cbn [closed_world started ledger]. apply delete_insert_eq.
Qed.

Lemma start_then_release_witness :
  exists w1 w2,
    handle_account_event {| label := "CreatedAccount"; account := "123456789012" |}
      (meter_world []) = (Ok "[OK] CreatedAccount 123456789012", w1)
    /\ handle_account_event {| label := "ReleasedAccount"; account := "123456789012" |} w1
       = (Ok "[OK] ReleasedAccount 123456789012", w2)
    /\ outbox w2
       = [("SuccessfulOnBoardingEvent",
           [("begin", PyFloat 1000.0%float); ("identifier", PyStr "uuid-0");
            ("end", PyFloat 1060.5%float); ("duration", PyFloat 60.5%float)])]
    /\ ledger w2 !! "OnBoarding 123456789012" = None.
Proof.
  destruct (start_then_release "123456789012" (meter_world [])
              "CreatedAccount" "OnBoarding " "Maintenance " "SuccessfulOnBoardingEvent")
    as (w1 & w2 & H1 & H2 & Hout & Hledger).
  - apply list_elem_of_here.
  - reflexivity.
  - exists w1, w2. split; [exact H1|]. split; [exact H2|].
    split; [rewrite Hout; reflexivity|].
    rewrite Hledger. apply lookup_delete_eq.
Defined.


End MeterMoreFacts.

(** ** The reporting handlers *)

Section ReportingFacts.
Import Py Reports Reporting Fixtures ReportingScenarios.

Lemma format_year_length y : y <= MAXYEAR -> String.length (format_0d 4 y) = 4.
Proof.
  assert (Hall : Forall (fun y => String.length (format_0d 4 y) = 4) (seq 0 (100 * 100))).
  { apply (bool_decide_unpack _). vm_compute. exact I. }
  intros Hy. rewrite Forall_forall in Hall. apply Hall, elem_of_seq.
  unfold MAXYEAR in Hy. lia.
Qed.

Lemma format_two_length k : k <= 99 -> String.length (format_0d 2 k) = 2.
Proof.
  assert (Hall : Forall (fun k => String.length (format_0d 2 k) = 2) (seq 0 100)).
  { apply (bool_decide_unpack _). vm_compute. exact I. }
  intros Hk. rewrite Forall_forall in Hall. apply Hall, elem_of_seq. lia.
Qed.

Lemma format_two_NoDup : NoDup (format_0d 2 <$> seq 1 31).
Proof. apply (bool_decide_unpack _). vm_compute. exact I. Qed.

Lemma days_in_month_bounds y m : 28 <= days_in_month y m <= 31.
Proof.
  unfold days_in_month.
  do 12 (destruct m as [|m]; [try destruct (is_leap y); lia|]). lia.
Qed.

Lemma slice10_short s : String.length s <= 10 -> slice10 s = s.
Proof.
  unfold slice10. generalize 10 as n. induction s as [|c s IH]; intros n Hlen.
  - by destruct n.
  - destruct n as [|n]; cbn [String.length] in Hlen; [lia|].
    cbn [String.substring]. rewrite IH by lia. done.
Qed.

Lemma isoformat_length d :
  year d <= MAXYEAR -> month d <= 99 -> day d <= 99 -> String.length (isoformat d) = 10.
Proof.
  intros Hy Hm Hd. unfold isoformat. rewrite !length_append.
  rewrite format_year_length, !format_two_length by done. reflexivity.
Qed.

Lemma replace_day_run d k w :
  1 <= k <= days_in_month (year d) (month d) ->
  replace_day d k w = (Ok {| year := year d; month := month d; day := k |}, w).
Proof.
  intros [Hlo Hhi]. unfold replace_day.
  apply Nat.leb_le in Hlo, Hhi. by rewrite Hlo, Hhi.
Qed.

Lemma comprehension_run {A B} (f : A -> M World B) (g : A -> B) xs w :
  (forall x, x ∈ xs -> f x w = (Ok (g x), w)) ->
  comprehension f xs w = (Ok (g <$> xs), w).
Proof.
  induction xs as [|x xs IH]; intros Hf; [done|]. cbn [comprehension].
  rewrite (bind_ok _ _ _ _ _ (Hf x (list_elem_of_here _ _))).
  rewrite (bind_ok _ _ w (g <$> xs) w); [done|].
  apply IH. intros y Hy. apply Hf. by apply list_elem_of_further.
Qed.

Lemma day_or_today_run day w : day_or_today day w = (Ok (default (today w) day), w).
Proof. by destruct day. Qed.

Lemma get_hashes_run day w :
  valid_date (default (today w) day) ->
  get_hashes day w
  = (Ok (month_days (default (today w) day) (Reporting.day (default (today w) day))), w).
Proof.
  intros (Hy & Hm & Hd). unfold get_hashes.
  rewrite (bind_ok _ _ _ _ _ (day_or_today_run day w)).
  set (d := default (today w) day) in *.
  rewrite (comprehension_run _
             (fun x => isoformat {| year := year d; month := month d; day := x + 1 |})).
  - unfold month_days. rewrite <- fmap_S_seq, <- list_fmap_compose.
    f_equal. f_equal. apply list_fmap_ext. intros _ x _. cbn. by rewrite Nat.add_1_r.
  - intros x Hx. apply elem_of_seq in Hx.
    rewrite (bind_ok _ _ _ _ _ (replace_day_run d (x + 1) w ltac:(lia))).
    unfold ret. f_equal. f_equal. apply slice10_short.
    pose proof (days_in_month_bounds (year d) (month d)).
    rewrite isoformat_length; cbn [year month Reporting.day]; lia.
Qed.

Lemma month_days_NoDup d n : n <= 31 -> NoDup (month_days d n).
Proof.
  intros Hn. unfold month_days.
  assert (Hsub : sublist (format_0d 2 <$> seq 1 n) (format_0d 2 <$> seq 1 31)).
  { apply fmap_sublist. replace 31 with (n + (31 - n)) by lia.
    rewrite seq_app. by apply sublist_inserts_r. }
  pose proof (sublist_NoDup _ _ format_two_NoDup Hsub) as Hdays.
  change (NoDup (((fun t => format_0d 4 (year d) +:+ "-" +:+ format_0d 2 (month d)
                             +:+ "-" +:+ t) ∘ format_0d 2) <$> seq 1 n)).
  rewrite list_fmap_compose.
  apply NoDup_fmap_2_strong; [|done].
  intros a b _ _ Hab. rewrite <- !append_assoc in Hab. by apply append_inj_r in Hab.
Qed.

(** X11: for a date of the calendar, its own or the one of today when none
    is given, [get_hashes] returns without raising the ISO texts of the
    days 1 to the day of the date, of the month and the year of the date,
    in this order: as many hashes as the day of the month, with no
    repetition, the last one being the text of the date itself. *)
Theorem get_hashes_covers_month day w :
  valid_date (default (today w) day) ->
  let d := default (today w) day in
  exists hashes,
    get_hashes day w = (Ok hashes, w)
    /\ hashes = month_days d (Reporting.day d)
    /\ length hashes = Reporting.day d
    /\ NoDup hashes
    /\ last hashes = Some (isoformat d).
Proof.
  intros Hvalid d. exists (month_days d (Reporting.day d)).
  split; [by apply get_hashes_run|]. split; [done|].
  destruct Hvalid as (_ & _ & Hlo & Hhi). fold d in Hlo, Hhi.
  pose proof (days_in_month_bounds (year d) (month d)).
  split; [unfold month_days; by rewrite length_fmap, length_seq|].
  split; [apply month_days_NoDup; lia|].
  unfold month_days. rewrite fmap_last.
  destruct (Reporting.day d) as [|n] eqn:Hday; [lia|].
  rewrite seq_S, last_snoc. cbn [fmap option_fmap option_map].
  f_equal. destruct d as [y m k]. cbn in *. by subst k.
Qed.

Lemma get_hashes_covers_month_witness :
  get_hashes (Some {| year := 2023; month := 3; day := 5 |}) (reporting_world [])
  = (Ok ["2023-03-01"; "2023-03-02"; "2023-03-03"; "2023-03-04"; "2023-03-05"],
     reporting_world []).
Proof.
  destruct (get_hashes_covers_month (Some {| year := 2023; month := 3; day := 5 |})
              (reporting_world [])) as (hashes & Hrun & -> & _).
  - vm_compute. repeat split; lia.
  - rewrite Hrun. reflexivity.
Defined.
Lemma get_records_run day w :
  valid_date (default (today w) day) ->
  get_records day w = (Ok (window w (default (today w) day)), w).
Proof.
  intros Hvalid. unfold get_records.
  by rewrite (bind_ok _ _ _ _ _ (get_hashes_run day w Hvalid)).
Qed.

(** A dictionary without repeated key is the list of its keys, each with
    its value. *)
Lemma dict_by_keys {V} (d : dict V) (g : string -> V) :
  NoDup (dict_keys d) ->
  (forall k, k ∈ dict_keys d -> dict_get k d = Some (g k)) ->
  d = (fun k => (k, g k)) <$> dict_keys d.
Proof.
  unfold dict_keys. induction d as [|[k v] d IH]; intros Hdup Hget; [done|].
  csimpl in *. apply NoDup_cons in Hdup as [Hk Hdup].
  assert (Hv : v = g k).
  { specialize (Hget k (list_elem_of_here _ _)). cbn [dict_get] in Hget.
    rewrite decide_True in Hget by done. by injection Hget. }
  subst v. f_equal. apply IH; [done|].
  intros k' Hk'. specialize (Hget k' (list_elem_of_further _ _ _ Hk')).
  cbn [dict_get] in Hget. rewrite decide_False in Hget; [done|].
  intros ->. done.
Qed.

(** The reports of complete records, entry by entry. *)
Lemma reports_entries records :
  foldl add_record [] records
  = (fun label => (label, report_of (filter (fun r => cost_center r = label) records)))
      <$> first_seen (cost_center <$> records).
Proof.
  pose proof (add_records_keys records []) as Hkeys.
  change (foldl _ (dict_keys []) (cost_center <$> records))
    with (first_seen (cost_center <$> records)) in Hkeys.
  rewrite <- Hkeys. apply dict_by_keys.
  - rewrite Hkeys. apply first_seen_NoDup.
  - intros label Hin. rewrite Hkeys, first_seen_elem in Hin.
    rewrite add_records_get.
    apply list_elem_of_fmap in Hin as (r & -> & Hr).
    assert (Hfound : r ∈ filter (fun r0 => cost_center r0 = cost_center r) records)
      by (by apply list_elem_of_filter).
    destruct (filter _ records) as [|r0 rs]; [by apply elem_of_nil in Hfound | done].
Qed.

Lemma os_environ_run k v w : environ w !! k = Some v -> os_environ k w = (Ok v, w).
Proof. unfold os_environ. by intros ->. Qed.

Lemma os_environ_missing k w :
  environ w !! k = None -> os_environ k w = (Raise (KeyError k), w).
Proof. unfold os_environ. by intros ->. Qed.

Lemma get_report_key_run label day w prefix :
  environ w !! "REPORTING_ACTIVITIES_PREFIX" = Some prefix ->
  get_report_key label day w
  = (Ok (prefix +:+ "/" +:+ label +:+ "/"
         +:+ format_0d 4 (year (default (today w) day)) +:+ "-"
         +:+ format_0d 2 (month (default (today w) day)) +:+ "-" +:+ label
         +:+ "-activities.csv"), w).
Proof.
  intros Hprefix. unfold get_report_key.
  rewrite (bind_ok _ _ _ _ _ (day_or_today_run day w)).
  rewrite (bind_ok _ _ _ _ _ (os_environ_run _ _ _ Hprefix)).
  reflexivity.
Qed.

Lemma store_report_run label body w bucket prefix :
  environ w !! "REPORTS_BUCKET_NAME" = Some bucket ->
  environ w !! "REPORTING_ACTIVITIES_PREFIX" = Some prefix ->
  store_report label body w
  = (Ok tt,
     stored w [{| Bucket := bucket;
                  Key := prefix +:+ "/" +:+ label +:+ "/"
                         +:+ format_0d 4 (year (today w)) +:+ "-"
                         +:+ format_0d 2 (month (today w)) +:+ "-" +:+ label
                         +:+ "-activities.csv";
                  Body := body |}]).
Proof.
  intros Hbucket Hprefix. unfold store_report.
  rewrite (bind_ok _ _ _ _ _ (os_environ_run _ _ _ Hbucket)).
  rewrite (bind_ok _ _ _ _ _ (get_report_key_run label None w prefix Hprefix)).
  reflexivity.
Qed.

Lemma stored_stored w l1 l2 : stored (stored w l1) l2 = stored w (l1 ++ l2).
Proof. unfold stored. cbn. by rewrite app_assoc. Qed.

Lemma store_reports_run (labels : list string) (body : string -> list (list string))
    bucket prefix : forall w,
  environ w !! "REPORTS_BUCKET_NAME" = Some bucket ->
  environ w !! "REPORTING_ACTIVITIES_PREFIX" = Some prefix ->
  for_each ((fun label => (label, {| buffer := body label; fieldnames := header |}))
              <$> labels)
           (fun entry => store_report entry.1 (buffer entry.2)) w
  = (Ok tt,
     stored w ((fun label =>
                  {| Bucket := bucket;
                     Key := prefix +:+ "/" +:+ label +:+ "/"
                            +:+ format_0d 4 (year (today w)) +:+ "-"
                            +:+ format_0d 2 (month (today w)) +:+ "-" +:+ label
                            +:+ "-activities.csv";
                     Body := body label |}) <$> labels)).
Proof.
  induction labels as [|label labels IH]; intros w Hbucket Hprefix.
  - cbn. unfold ret, stored. by rewrite app_nil_r; destruct w.
  - cbn [fmap list_fmap for_each fst snd buffer].
    rewrite (bind_ok _ _ _ _ _ (store_report_run label (body label) w bucket prefix
                                  Hbucket Hprefix)).
    rewrite IH by done. rewrite stored_stored. reflexivity.
Qed.

(** X12: the daily report of a date of the calendar, over complete records
    and with the bucket and the prefix configured, returns after putting
    one object per distinct cost center of the records of the days 1 to the
    day of the date, in the order in which the cost centers are first met.
    The body of an object is the header and the rows of its cost center;
    its key is made of the prefix, the cost center and the year and the
    month of today, whatever the date reported on. *)
Theorem handle_daily_reporting_stores day w bucket prefix :
  valid_date (default (today w) day) ->
  environ w !! "REPORTS_BUCKET_NAME" = Some bucket ->
  environ w !! "REPORTING_ACTIVITIES_PREFIX" = Some prefix ->
  Forall complete (window w (default (today w) day)) ->
  let records := window w (default (today w) day) in
  handle_daily_reporting day w
  = (Ok "[OK]",
     stored w (report_object w bucket prefix records
                 <$> first_seen (cost_center <$> records))).
Proof.
  intros Hvalid Hbucket Hprefix Hall records. unfold handle_daily_reporting.
  rewrite (bind_ok _ _ _ _ _ (get_records_run day w Hvalid)). fold records.
  unfold build_reports.
  rewrite (bind_ok _ _ _ _ _ (build_reports_from_run records [] w Hall
                                ltac:(intros ? ? [=]))).
  rewrite reports_entries. unfold report_of.
  rewrite (bind_ok _ _ _ _ _
             (store_reports_run _
                (fun label => header :: (row_of <$> filter (fun r => cost_center r = label) records))
                bucket prefix w Hbucket Hprefix)).
  reflexivity.
Qed.

Lemma handle_daily_reporting_stores_witness :
  let w := reporting_world configured in
  exists w1,
    handle_daily_reporting (Some {| year := 2023; month := 3; day := 5 |}) w = (Ok "[OK]", w1)
    /\ Key <$> put_objects w1
       = ["activities/Tools/2023-04-Tools-activities.csv";
          "activities/Data/2023-04-Data-activities.csv";
          "activities/Labs/2023-04-Labs-activities.csv"].
Proof.
  intros w. eexists. split.
  - apply (handle_daily_reporting_stores
             (Some {| year := 2023; month := 3; day := 5 |}) w "reports" "activities").
    + vm_compute. repeat split; lia.
    + reflexivity.
    + reflexivity.
    + apply (bool_decide_unpack _). vm_compute. exact I.
  - vm_compute. reflexivity.
Defined.
(** X13: with no record under the hashes of the days 1 to the day of the
    date, the daily report puts nothing and returns, whether or not the
    bucket and the prefix are configured. *)
Theorem handle_daily_reporting_nothing day w :
  valid_date (default (today w) day) ->
  window w (default (today w) day) = [] ->
  handle_daily_reporting day w = (Ok "[OK]", w).
Proof.
  intros Hvalid Hempty. unfold handle_daily_reporting.
  rewrite (bind_ok _ _ _ _ _ (get_records_run day w Hvalid)). by rewrite Hempty.
Qed.

Lemma handle_daily_reporting_nothing_witness :
  handle_daily_reporting (Some {| year := 2023; month := 2; day := 28 |})
    (reporting_world [])
  = (Ok "[OK]", reporting_world []).
Proof.
  apply (handle_daily_reporting_nothing
           (Some {| year := 2023; month := 2; day := 28 |}) (reporting_world [])).
  - vm_compute. repeat split; lia.
  - vm_compute. reflexivity.
Defined.

Lemma first_seen_nonempty (l : list string) : l <> [] -> first_seen l <> [].
Proof.
  destruct l as [|x l]; [done|]. intros _ Hnil.
  assert (Hin : x ∈ first_seen (x :: l)) by (apply first_seen_elem, list_elem_of_here).
  rewrite Hnil in Hin. by apply elem_of_nil in Hin.
Qed.

(** X14: with at least one record to report, all of them complete, a
    missing configuration makes the daily report raise the [KeyError] of
    the variable at the first report, the bucket being looked up before the
    prefix; no object is put. *)
Theorem handle_daily_reporting_unconfigured day w :
  valid_date (default (today w) day) ->
  Forall complete (window w (default (today w) day)) ->
  window w (default (today w) day) <> [] ->
  (environ w !! "REPORTS_BUCKET_NAME" = None ->
     handle_daily_reporting day w = (Raise (KeyError "REPORTS_BUCKET_NAME"), w))
  /\ (is_Some (environ w !! "REPORTS_BUCKET_NAME") ->
      environ w !! "REPORTING_ACTIVITIES_PREFIX" = None ->
      handle_daily_reporting day w = (Raise (KeyError "REPORTING_ACTIVITIES_PREFIX"), w)).
Proof.
  intros Hvalid Hall Hsome.
  assert (Hrun : handle_daily_reporting day w
                 = (for_each (foldl add_record [] (window w (default (today w) day)))
                      (fun entry => store_report entry.1 (buffer entry.2)) ;;;
                    ret "[OK]") w).
  { unfold handle_daily_reporting.
    rewrite (bind_ok _ _ _ _ _ (get_records_run day w Hvalid)).
    unfold build_reports.
    by rewrite (bind_ok _ _ _ _ _ (build_reports_from_run _ [] w Hall
                                     ltac:(intros ? ? [=]))). }
  rewrite Hrun, reports_entries.
  destruct (first_seen (cost_center <$> window w (default (today w) day)))
    as [|label labels] eqn:Hlabels.
  { exfalso. apply (first_seen_nonempty (cost_center <$> window w (default (today w) day)));
      [|done]. by destruct (window w (default (today w) day)). }
  cbn [fmap list_fmap for_each fst snd]. split.
  - intros Hbucket. unfold store_report.
    unfold bind at 1. unfold bind at 1. unfold bind at 1.
    by rewrite (os_environ_missing _ _ Hbucket).
  - intros [bucket Hbucket] Hprefix. unfold store_report.
    unfold bind at 1. unfold bind at 1.
    rewrite (bind_ok _ _ _ _ _ (os_environ_run _ _ _ Hbucket)).
    unfold get_report_key.
    unfold bind at 1. rewrite (bind_ok _ _ _ _ _ (day_or_today_run None w)).
    unfold bind at 1. by rewrite (os_environ_missing _ _ Hprefix).
Qed.

Lemma handle_daily_reporting_unconfigured_witness :
  handle_daily_reporting (Some {| year := 2023; month := 3; day := 5 |})
    (reporting_world [("REPORTING_ACTIVITIES_PREFIX", "activities")])
  = (Raise (KeyError "REPORTS_BUCKET_NAME"),
     reporting_world [("REPORTING_ACTIVITIES_PREFIX", "activities")]).
Proof.
  apply (handle_daily_reporting_unconfigured
           (Some {| year := 2023; month := 3; day := 5 |})
           (reporting_world [("REPORTING_ACTIVITIES_PREFIX", "activities")])).
  - vm_compute. repeat split; lia.
  - apply (bool_decide_unpack _). vm_compute. exact I.
  - vm_compute. discriminate.
  - reflexivity.
Defined.

(** X15: the monthly report of a date of the calendar is the daily report
    of the last day of the month before: it reads the hashes of all the
    days of that month, from the first to the last.  For a date in January
    of year 1 there is no month before and the subtraction of dates
    overflows. *)
Theorem handle_monthly_reporting_previous_month day w :
  valid_date (default (today w) day) ->
  let d := default (today w) day in
  (year d = 1 -> month d = 1 -> handle_monthly_reporting day w = OverflowError)
  /\ (1 < month d \/ 1 < year d ->
      exists last,
        valid_date last
        /\ Reporting.day last = days_in_month (year last) (month last)
        /\ 12 * year last + month last + 1 = 12 * year d + month d
        /\ handle_monthly_reporting day w = Went (handle_daily_reporting (Some last) w)
        /\ get_hashes (Some last) w
           = (Ok (month_days last (days_in_month (year last) (month last))), w)).
Proof.
  intros Hvalid d. destruct Hvalid as ((Hy1 & Hy2) & (Hm1 & Hm2) & (Hd1 & Hd2)).
  fold d in Hy1, Hy2, Hm1, Hm2, Hd1, Hd2.
  pose proof (days_in_month_bounds (year d) (month d)) as Hdim.
  assert (Hfirst : (day <- day_or_today day ;; replace_day day 1) w
                   = (Ok {| year := year d; month := month d; day := 1 |}, w)).
  { rewrite (bind_ok _ _ _ _ _ (day_or_today_run day w)).
    apply replace_day_run. fold d. lia. }
  unfold handle_monthly_reporting. rewrite Hfirst.
  unfold minus_one_day. cbn [Reporting.day year month].
  change (1 <? 1) with false. cbv iota. split.
  - intros Hy Hm. rewrite Hy, Hm. reflexivity.
  - intros Hlater. destruct (1 <? month d) eqn:Hmonth.
    + apply Nat.ltb_lt in Hmonth.
      pose proof (days_in_month_bounds (year d) (month d - 1)) as Hprev.
      set (last := {| year := year d; month := month d - 1;
                      day := days_in_month (year d) (month d - 1) |}).
      assert (Hlast : valid_date last)
        by (unfold valid_date, last, MAXYEAR in *;
            cbn [year month Reporting.day days_in_month]; lia).
      exists last. split; [done|]. split; [done|].
      split; [unfold last; cbn [year month Reporting.day]; lia|]. split; [done|].
      exact (get_hashes_run (Some last) w Hlast).
    + apply Nat.ltb_ge in Hmonth.
      assert (Hyear : (1 <? year d) = true) by (apply Nat.ltb_lt; lia).
      rewrite Hyear.
      set (last := {| year := year d - 1; month := 12; day := 31 |}).
      assert (Hlast : valid_date last)
        by (unfold valid_date, last, MAXYEAR in *;
            cbn [year month Reporting.day days_in_month]; lia).
      exists last. split; [done|]. split; [done|].
      split; [unfold last; cbn [year month Reporting.day]; lia|]. split; [done|].
      exact (get_hashes_run (Some last) w Hlast).
Qed.

Lemma handle_monthly_reporting_previous_month_witness :
  handle_monthly_reporting (Some {| year := 2024; month := 3; day := 7 |})
    (reporting_world configured)
  = Went (handle_daily_reporting (Some {| year := 2024; month := 2; day := 29 |})
            (reporting_world configured)).
Proof.
  destruct (handle_monthly_reporting_previous_month
              (Some {| year := 2024; month := 3; day := 7 |})
              (reporting_world configured)) as [_ Hprev].
  - vm_compute. repeat split; lia.
  - destruct Hprev as (last & _ & _ & _ & Hrun & _); [left; cbn; lia|].
    reflexivity.
Defined.

(** One round of the loop on a complete record. *)
Lemma build_reports_from_step {St} r records reports (w : St) :
  complete r -> headed reports ->
  build_reports_from reports (r :: records) w
  = build_reports_from (add_record reports r) records w.
Proof.
  intros Hr Hhead.
  assert (Hget : forall k, k ∈ fields -> dict_get k (value r) = Some (field k r))
    by (intros; by apply complete_field).
  cbn [build_reports_from]. unfold dict_getitem.
  rewrite !Hget by (unfold fields; rewrite !elem_of_cons; auto 10).
  unfold bind at 1. unfold ret at 1. unfold bind at 1. unfold ret at 1.
  unfold bind at 1. unfold ret at 1. unfold bind at 1. unfold ret at 1.
  unfold bind at 1. unfold ret at 1. unfold bind at 1. unfold ret at 1.
  unfold bind at 1. unfold ret at 1.
  assert (Hknown : fieldnames (default get_reporter
                                 (dict_get (field "cost-center" r) reports)) = header).
  { destruct (dict_get (field "cost-center" r) reports) as [old|] eqn:Hold; [|done].
    by apply (Hhead _ _ Hold). }
  by rewrite (bind_ok _ _ _ _ _ (writerow_header _ _ _ _ _ _ _ w Hknown)).
Qed.

(** X16: [build_reports] fails as a whole on the first record whose payload
    lacks a field: after any number of complete records, such a record makes
    it raise the [KeyError] of the first field that is missing, in the order
    cost-center, account, stamp, transaction, identifier, duration; no report
    is returned, not even for the records before. *)
Theorem build_reports_fails_closed {St} before r after k (w : St) :
  Forall complete before ->
  first_missing r = Some k ->
  build_reports (before ++ r :: after) w = (Raise (KeyError k), w).
Proof.
  intros Hall Hmissing. unfold build_reports.
  assert (Hgo : forall reports, headed reports ->
            build_reports_from reports (before ++ r :: after) w
            = build_reports_from (foldl add_record reports before) (r :: after) w).
  { induction Hall as [|b before Hb _ IH]; intros reports Hhead; [done|].
    cbn [app foldl]. rewrite build_reports_from_step by done.
    apply IH. by apply headed_add_record. }
  rewrite Hgo by (intros ? ? [=]).
  generalize (foldl add_record [] before). intros reports.
  unfold first_missing, fields in Hmissing. cbn [List.find] in Hmissing.
  cbn [build_reports_from]. unfold dict_getitem, bind, ret, raise.
  destruct (dict_get "cost-center" (value r)) as [v1|];
    [|by injection Hmissing as <-].
  rewrite bool_decide_eq_false_2 in Hmissing by done.
  destruct (dict_get "account" (value r)) as [v2|];
    [|by injection Hmissing as <-].
  rewrite bool_decide_eq_false_2 in Hmissing by done.
  destruct (dict_get "stamp" (value r)) as [v3|];
    [|by injection Hmissing as <-].
  rewrite bool_decide_eq_false_2 in Hmissing by done.
  destruct (dict_get "transaction" (value r)) as [v4|];
    [|by injection Hmissing as <-].
  rewrite bool_decide_eq_false_2 in Hmissing by done.
  destruct (dict_get "identifier" (value r)) as [v5|];
    [|by injection Hmissing as <-].
  rewrite bool_decide_eq_false_2 in Hmissing by done.
  destruct (dict_get "duration" (value r)) as [v6|];
    [|by injection Hmissing as <-].
  rewrite bool_decide_eq_false_2 in Hmissing by done.
  discriminate.
Qed.

Lemma build_reports_fails_closed_witness :
  build_reports
    (five_days
     ++ [{| hash := "2023-03-06"; range := "07:10:00.000000";
            value := [("cost-center", "Tools"); ("account", "111111111111");
                      ("begin", "1000.0"); ("duration", "60.5")] |}])
    tt
  = (Raise (KeyError "stamp"), tt).
Proof.
  apply (build_reports_fails_closed five_days _ []).
  - apply (bool_decide_unpack _). vm_compute. exact I.
  - reflexivity.
Defined.
End ReportingFacts.
